(** * udsNLP: "3 - Faster Sentiment Analysis" notebook

    A shallow embedding of the notebook's Python code: the bigram
    augmentation [generate_bigrams] (a function that mutates the list it is
    given), the accuracy and epoch loops [binary_accuracy], [train] and
    [evaluate], and the inference pipeline of [predict_sentiment].

    Python objects live in a heap indexed by references, so that aliasing and
    in-place mutation are visible; exceptions are values of [exn]. *)

From Stdlib Require Import Ascii QArith Qabs Qround.
From stdpp Require Import base option list gmap strings fin_maps.

Local Open Scope string_scope.
Local Open Scope list_scope.
Local Open Scope nat_scope.
Local Open Scope stdpp_scope.

(** ** Python objects, heap and exceptions *)

Module Py.

Definition loc := nat.

(** The two kinds of object the notebook passes around: a list of tokens and
    a dict from token to id. *)
Inductive pyobj :=
| PyList (items : list string)
| PyDict (d : gmap string nat).

Inductive exn :=
| TypeError
| AttributeError
| KeyError
| ZeroDivisionError
| RuntimeError
| AssertionError.

Inductive result (A : Type) :=
| Ok (a : A)
| Raise (e : exn).
Arguments Ok {A} a.
Arguments Raise {A} e.

(** A computation reads and updates the heap, or raises. *)
Definition M (A : Type) : Type := gmap loc pyobj → result (A * gmap loc pyobj).

Definition ret {A} (a : A) : M A := λ h, Ok (a, h).

Definition bind {A B} (m : M A) (k : A → M B) : M B :=
  λ h, match m h with
       | Ok (a, h') => k a h'
       | Raise e => Raise e
       end.

Definition raise {A} (e : exn) : M A := λ _, Raise e.

(** [for v in xs: body(v)] *)
Fixpoint for_each {A} (xs : list A) (body : A → M unit) : M unit :=
  match xs with
  | [] => ret tt
  | v :: xs' => bind (body v) (λ _, for_each xs' body)
  end.

(** [[f(v) for v in xs]] *)
Fixpoint comprehension {A B} (xs : list A) (f : A → M B) : M (list B) :=
  match xs with
  | [] => ret []
  | v :: xs' => bind (f v) (λ b, bind (comprehension xs' f) (λ bs, ret (b :: bs)))
  end.

(** A list display or comprehension result: a new object at an unused
    reference. *)
Definition new_list (items : list string) : M loc :=
  λ h, let l := fresh (dom h) in Ok (l, <[l := PyList items]> h).

Definition new_dict (d : gmap string nat) : M loc :=
  λ h, let l := fresh (dom h) in Ok (l, <[l := PyDict d]> h).

(** [x[i:]]: a copy of the tail of the list from index [i] on. *)
Definition slice_from (x : loc) (i : nat) : M (list string) :=
  λ h, match h !! x with
       | Some (PyList items) => Ok (drop i items, h)
       | _ => Raise TypeError
       end.

(** [x.append(s)]: in place. *)
Definition list_append (x : loc) (s : string) : M unit :=
  λ h, match h !! x with
       | Some (PyList items) => Ok (tt, <[x := PyList (items ++ [s])]> h)
       | _ => Raise AttributeError
       end.

(** Reading a whole list, as iteration over it does. *)
Definition list_items (x : loc) : M (list string) :=
  λ h, match h !! x with
       | Some (PyList items) => Ok (items, h)
       | _ => Raise TypeError
       end.

(** [d[k]] and [k in d] / [d.get(k)] on a dict object. *)
Definition dict_items (v : loc) : M (gmap string nat) :=
  λ h, match h !! v with
       | Some (PyDict d) => Ok (d, h)
       | _ => Raise TypeError
       end.

(** Code that touches no object: exceptions only. *)
Definition result_bind {A B} (r : result A) (k : A → result B) : result B :=
  match r with
  | Ok a => k a
  | Raise e => Raise e
  end.

End Py.

Import Py.

#[export] Instance M_ret : MRet M := @Py.ret.
#[export] Instance M_bind : MBind M := λ A B k m, Py.bind m k.
#[export] Instance result_ret : MRet result := @Ok.
#[export] Instance result_mbind : MBind result := λ A B k r, result_bind r k.

(** Unfolding of the monad's notation. *)
Ltac py_unfold :=
  unfold mbind, mret, M_bind, M_ret, result_mbind, result_ret,
    Py.bind, Py.ret, Py.raise, Py.result_bind in *.

(** ** Built-ins used by [generate_bigrams] *)

(** [zip] applied to the unpacked list [ls]: tuples of the i-th elements, as
    many as the shortest argument has; no argument gives nothing. Tuples are
    lists here. *)
Fixpoint zip_star {A} (ls : list (list A)) : list (list A) :=
  match ls with
  | [] => []
  | l :: ls' =>
      match ls' with
      | [] => map (λ a, [a]) l
      | _ :: _ => zip_with cons l (zip_star ls')
      end
  end.

(** [sep.join(parts)] *)
Definition join (sep : string) (parts : list string) : string :=
  String.concat sep parts.

(** [range(n)] *)
Definition range (n : nat) : list nat := seq 0 n.

(** ** generate_bigrams *)

(** <<
    def generate_bigrams(x):
        n_grams = list(zip( *[x[i:] for i in range(2)]))
        for n_gram in n_grams:
            x.append(' '.join(n_gram))
        return x
    >> *)
Definition generate_bigrams (x : loc) : M loc :=
  slices ← comprehension (range 2) (slice_from x);
  let n_grams := zip_star slices in
  for_each n_grams (λ n_gram, list_append x (join " " n_gram));;
  mret x.

(** A call on a list display, [generate_bigrams([t0, t1, ...])], as in the
    notebook's example cell: the value of the returned list. *)
Definition call_generate_bigrams (tokens : list string) : result (list string) :=
  match (x ← new_list tokens; r ← generate_bigrams x; list_items r) ∅ with
  | Ok (items, _) => Ok items
  | Raise e => Raise e
  end.

(** The bigrams as the design document words them: for each position [i]
    from 0 to [len(x)-2], [x[i]] and [x[i+1]] joined by one space. *)
Definition bigrams_spec (x : list string) : list string :=
  map (λ i, String.append (nth i x EmptyString)
                          (String.append " " (nth (i + 1) x EmptyString)))
      (seq 0 (length x - 1)).


(** The value [generate_bigrams] leaves in the list: the loop of appends
    run on the list's items. *)
Definition bigram_items (x : list string) : list string :=
  foldl (λ acc n_gram, acc ++ [join " " n_gram]) x
        (zip_star (map (λ i, drop i x) (range 2))).

(** ** Numbers of the tensor library *)

(** Floats are kept abstract: the operations the notebook applies to them. *)
Class FloatOps (F : Type) := {
  f_zero : F;
  f_one : F;
  f_add : F → F → F;
  f_div : F → F → F;
  f_of_nat : nat → F;
  f_eqb : F → F → bool;
  f_sigmoid : F → F;
  f_round : F → F
}.

(** Python's [a / n] on numbers raises on a zero divisor. *)
Definition py_truediv `{FloatOps F} (a : F) (n : nat) : result F :=
  if decide (n = 0) then Raise ZeroDivisionError
  else Ok (f_div a (f_of_nat n)).

(** A tensor divided by a Python number never raises; what a zero divisor
    gives is left to [f_div]. *)
Definition tensor_div `{FloatOps F} (a : F) (n : nat) : F :=
  f_div a (f_of_nat n).

(** [a == b] on one-dimensional tensors, with broadcasting of a length-one
    operand; other length mismatches raise. *)
Definition tensor_eq `{FloatOps F} (a b : list F) : result (list bool) :=
  if decide (length a = length b) then Ok (zip_with f_eqb a b)
  else if decide (length a = 1) then Ok (map (f_eqb (default f_zero (head a))) b)
  else if decide (length b = 1) then Ok (map (λ v, f_eqb v (default f_zero (head b))) a)
  else Raise RuntimeError.

(** [t.float()] on a boolean tensor and [t.sum()]. *)
Definition tensor_float `{FloatOps F} (t : list bool) : list F :=
  map (λ b : bool, if b then f_one else f_zero) t.

Definition tensor_sum `{FloatOps F} (t : list F) : F :=
  foldl f_add f_zero t.

(** ** binary_accuracy, train, evaluate *)

(** <<
    def binary_accuracy(preds, y):
        rounded_preds = torch.round(torch.sigmoid(preds))
        correct = (rounded_preds == y).float()
        acc = correct.sum() / len(correct)
        return acc
    >> *)
Definition binary_accuracy `{FloatOps F} (preds y : list F) : result F :=
  let rounded_preds := map (λ p, f_round (f_sigmoid p)) preds in
  eq ← tensor_eq rounded_preds y;
  let correct := tensor_float eq in
  let acc := tensor_div (tensor_sum correct) (length correct) in
  mret acc.

(** Number of positions where the rounded sigmoid of the prediction equals
    the label. *)
Definition count_correct `{FloatOps F} (preds y : list F) : nat :=
  length (filter (λ py, f_eqb (f_round (f_sigmoid py.1)) py.2 = true) (zip preds y)).

(** Number of [True] entries of a boolean tensor. *)
Definition count_true (t : list bool) : nat :=
  length (filter (λ b : bool, b = true) t).

Section Training.
Context `{FloatOps F}.

(** The model, the criterion and the optimizer are the tensor library's:
    [W] is the state of the model weights and the optimizer. *)
Variable W : Type.
Variable forward : W → list (list nat) → list F.
Variable criterion : list F → list F → F.
Variable optimizer_step : W → list (list nat) → list F → W.

(** A batch: the sentences' ids and the labels. *)
Definition batch : Type := list (list nat) * list nat.

(** The [for] of [train], from the running weights and sums:
    <<
    for batch_sentence, batch_label in iterator:
        optimizer.zero_grad()
        predictions = model(batch_sentence).squeeze(1)
        batch_label = batch_label.float()
        loss = criterion(predictions, batch_label)
        acc = binary_accuracy(predictions, batch_label)
        loss.backward()
        optimizer.step()
        epoch_loss += loss.item()
        epoch_acc += acc.item()
    >>
    [optimizer_step] stands for the gradient computation and the update. *)
Fixpoint train_loop (w : W) (iterator : list batch) (epoch_loss epoch_acc : F)
  : result (W * F * F) :=
  match iterator with
  | [] => Ok (w, epoch_loss, epoch_acc)
  | (batch_sentence, batch_label) :: rest =>
      let predictions := forward w batch_sentence in
      let batch_label := map f_of_nat batch_label in
      let loss := criterion predictions batch_label in
      acc ← binary_accuracy predictions batch_label;
      let w' := optimizer_step w batch_sentence batch_label in
      train_loop w' rest (f_add epoch_loss loss) (f_add epoch_acc acc)
  end.

(** [train]: the weights after the epoch with the two averages.
    <<
    epoch_loss = 0
    epoch_acc = 0
    ...
    return epoch_loss / len(iterator), epoch_acc / len(iterator)
    >>
    The left quotient is evaluated first. *)
Definition train (w : W) (iterator : list batch) : result (W * (F * F)) :=
  '(w', epoch_loss, epoch_acc) ← train_loop w iterator f_zero f_zero;
  l ← py_truediv epoch_loss (length iterator);
  a ← py_truediv epoch_acc (length iterator);
  mret (w', (l, a)).

(** The [for] of [evaluate]: as in [train], without the optimizer. *)
Fixpoint evaluate_loop (w : W) (iterator : list batch) (epoch_loss epoch_acc : F)
  : result (F * F) :=
  match iterator with
  | [] => Ok (epoch_loss, epoch_acc)
  | (batch_sentence, batch_label) :: rest =>
      let predictions := forward w batch_sentence in
      let batch_label := map f_of_nat batch_label in
      let loss := criterion predictions batch_label in
      acc ← binary_accuracy predictions batch_label;
      evaluate_loop w rest (f_add epoch_loss loss) (f_add epoch_acc acc)
  end.

(** [evaluate]: the same two quotients by [len(iterator)]. *)
Definition evaluate (w : W) (iterator : list batch) : result (F * F) :=
  '(epoch_loss, epoch_acc) ← evaluate_loop w iterator f_zero f_zero;
  l ← py_truediv epoch_loss (length iterator);
  a ← py_truediv epoch_acc (length iterator);
  mret (l, a).

End Training.

(** Exact rational arithmetic in place of floats: sigmoid and rounding stay
    parameters. Division by zero is not a rational; this instance is used
    for non-empty tensors only. It is not what the tensor library computes:
    there every sum and quotient is rounded to float32, see [f32_ops]. *)
Definition Q_ops (sigmoid round : Q → Q) : FloatOps Q := {|
  f_zero := 0%Q;
  f_one := 1%Q;
  f_add := Qplus;
  f_div := Qdiv;
  f_of_nat := λ n, inject_Z (Z.of_nat n);
  f_eqb := Qeq_bool;
  f_sigmoid := sigmoid;
  f_round := round
|}.

(** A rational stand-in for the sigmoid, [1/2] at 0 and between 0 and 1,
    and rounding to the nearest integer. *)
Definition soft_sigmoid (p : Q) : Q := ((1 + p / (1 + Qabs p)) / 2)%Q.
Definition round_nearest (p : Q) : Q := inject_Z (Qfloor (p + (1 # 2))%Q).

(** ** Vocabulary builder and vectorizer (module [data_utils])

    The notebook imports [build_dataset], [vectorize] and [tokenizer] from
    [data_utils]; what follows is their behaviour as the design document
    describes it, over the same heap of objects. *)

(** Modelled from the spec: the reserved tokens of [data_utils]'s vocabulary
    builder, which is missing. The two reserved tokens are seeded first, at
    fixed ids; which of the two comes first is left open, so both orders are
    covered by [unk_first]. *)
Definition reserved_tokens (unk_first : bool) : list string :=
  if unk_first then ["<unk>"; "<pad>"] else ["<pad>"; "<unk>"].

(** Modelled from the spec: the fixed ids of the two reserved tokens in the
    missing builder, the first two ids in the seeding order. *)
Definition unk_id (unk_first : bool) : nat := if unk_first then 0 else 1.
Definition pad_id (unk_first : bool) : nat := if unk_first then 1 else 0.

(** Modelled from the spec: one step of the missing vocabulary builder. A
    token seen for the first time gets the next id; a token seen before keeps
    its id. *)
Definition add_token (vocab : gmap string nat) (tok : string) : gmap string nat :=
  match vocab !! tok with
  | Some _ => vocab
  | None => <[tok := size vocab]> vocab
  end.

(** Modelled from the spec: the missing vocabulary builder of [data_utils].
    It scans the tokenized examples in order, after seeding the reserved
    tokens. *)
Definition build_vocab (unk_first : bool) (corpus : list (list string))
  : gmap string nat :=
  foldl add_token (foldl add_token ∅ (reserved_tokens unk_first)) (concat corpus).

(** The invariant of a vocabulary: the ids are exactly the numbers below its
    size, and no id belongs to two tokens. *)
Definition vocab_wf (v : gmap string nat) : Prop :=
  (∀ i, i < size v ↔ ∃ tok, v !! tok = Some i)
  ∧ (∀ tok1 tok2 i, v !! tok1 = Some i → v !! tok2 = Some i → tok1 = tok2).

(** Modelled from the spec: the id of one token in the missing [vectorize].
    A token of the vocabulary gets its id, any other the id of the unknown
    token. *)
Definition token_id (d : gmap string nat) (tok : string) : result nat :=
  match d !! tok with
  | Some i => Ok i
  | None =>
      match d !! "<unk>" with
      | Some u => Ok u
      | None => Raise KeyError
      end
  end.

(** Modelled from the spec: the ids of a token sequence, left to right; the
    first failing lookup ends it. *)
Fixpoint vectorize_items (d : gmap string nat) (toks : list string)
  : result (list nat) :=
  match toks with
  | [] => Ok []
  | tok :: rest =>
      i ← token_id d tok;
      ids ← vectorize_items d rest;
      mret (i :: ids)
  end.

(** Modelled from the spec: [vectorize(vocab, tokenized, one_sentence=True)]
    of [data_utils], which is missing. It reads the vocabulary and the token
    list and writes to neither. *)
Definition vectorize (vocab tokenized : loc) : M (list nat) :=
  d ← dict_items vocab;
  toks ← list_items tokenized;
  comprehension toks (λ tok, λ h,
    match token_id d tok with
    | Ok i => Ok (i, h)
    | Raise e => Raise e
    end).

(** Modelled from the spec: the dataset object of the missing [data_utils].
    It holds the vectorized examples, each an id sequence with its label, and
    a reference to the vocabulary they were built with. *)
Record Dataset := {
  examples : list (list nat * nat);
  vocab : loc
}.

Section Pipeline.
(** The tokenizer is an external function of the sentence. *)
Variable tokenizer : string → list string.

(** The two statements of [predict_sentiment] after [model.eval()]:
    <<
    tokenized = generate_bigrams([tok for tok in tokenizer(sentence)])
    indexed = vectorize(VOCAB, tokenized, one_sentence=True)
    >> *)
Definition predict_tokenized (sentence : string) : M loc :=
  fresh_list ← new_list (tokenizer sentence);
  generate_bigrams fresh_list.

Definition predict_indexed (VOCAB : loc) (sentence : string) : M (list nat) :=
  tokenized ← predict_tokenized sentence;
  vectorize VOCAB tokenized.

Context `{FloatOps F}.
Variable W : Type.
Variable forward : W → list (list nat) → list F.

(** [t.item()] on a tensor of one element. *)
Definition item (t : list F) : result F :=
  match t with
  | [v] => Ok v
  | _ => Raise RuntimeError
  end.

(** <<
    def predict_sentiment(model, sentence):
        model.eval()
        tokenized = generate_bigrams([tok for tok in tokenizer(sentence)])
        indexed = vectorize(VOCAB, tokenized, one_sentence=True)
        tensor = torch.LongTensor(indexed).unsqueeze(0).to(device)
        prediction = torch.sigmoid(model(tensor))
        return prediction.item()
    >>
    The model object is its weights [model] with its [training] flag;
    [model.eval()] clears the flag, and the flag the call leaves is returned
    beside the prediction. The forward pass of the notebook's model has no
    layer that reads the flag. *)
Definition predict_sentiment (VOCAB : loc) (model : W) (training : bool)
    (sentence : string) : M (F * bool) :=
  let training := false in
  indexed ← predict_indexed VOCAB sentence;
  let tensor := [indexed] in
  let prediction := map f_sigmoid (forward model tensor) in
  (λ h, match item prediction with
        | Ok v => Ok ((v, training), h)
        | Raise e => Raise e
        end) : M (F * bool).

(** Modelled from the spec: the tokenized rows of the missing
    [build_dataset], each one a new list, augmented with its bigrams when
    asked. *)
Definition tokenize_rows (generate_bigrams_flag : bool)
    (rows : list (string * nat)) : M (list (loc * nat)) :=
  comprehension rows (λ '(sentence, label),
    x ← new_list (tokenizer sentence);
    x ← (if generate_bigrams_flag then generate_bigrams x else mret x);
    mret (x, label)).

(** Modelled from the spec: the examples of the missing [build_dataset],
    every token list vectorized with the one vocabulary. *)
Definition build_examples (vocab : loc) (rows : list (loc * nat))
  : M (list (list nat * nat)) :=
  comprehension rows (λ '(x, label),
    ids ← vectorize vocab x;
    mret (ids, label)).

(** Modelled from the spec: the token lists the vocabulary is built from. *)
Definition corpus_of (rows : list (loc * nat)) : M (list (list string)) :=
  comprehension rows (λ '(x, _), list_items x).

(** Modelled from the spec: [build_dataset(path, split_ratio=...,
    generate_bigrams=...)] of [data_utils], which is missing, on the rows
    read from the file. The vocabulary is built once, from all rows, and
    both datasets refer to it. The first [n_train] rows are the training
    rows, the others the validation rows. *)
Definition build_dataset_split (unk_first : bool) (n_train : nat)
    (generate_bigrams_flag : bool) (rows : list (string * nat))
  : M (Dataset * Dataset) :=
  tokenized ← tokenize_rows generate_bigrams_flag rows;
  corpus ← corpus_of tokenized;
  v ← new_dict (build_vocab unk_first corpus);
  let train_rows := take n_train tokenized in
  let valid_rows := drop n_train tokenized in
  train_examples ← build_examples v train_rows;
  valid_examples ← build_examples v valid_rows;
  mret ({| examples := train_examples; vocab := v |},
        {| examples := valid_examples; vocab := v |}).

(** Modelled from the spec: [build_dataset(path, predefined_vocab=VOCAB)]
    of [data_utils], which is missing: the given vocabulary is reused. *)
Definition build_dataset_predefined (predefined_vocab : loc)
    (generate_bigrams_flag : bool) (rows : list (string * nat)) : M Dataset :=
  tokenized ← tokenize_rows generate_bigrams_flag rows;
  test_examples ← build_examples predefined_vocab tokenized;
  mret {| examples := test_examples; vocab := predefined_vocab |}.

(** The notebook's data cells:
    <<
    train_dataset, valid_dataset = build_dataset('data/ratings_train.txt', split_ratio=0.7, generate_bigrams=True)
    assert train_dataset.vocab == valid_dataset.vocab
    VOCAB = train_dataset.vocab
    test_dataset = build_dataset('data/ratings_test.txt', predefined_vocab = VOCAB)
    >> *)
Definition prepare_data (unk_first : bool) (n_train : nat)
    (test_bigrams : bool) (train_rows test_rows : list (string * nat))
  : M (Dataset * Dataset * Dataset) :=
  '(train_dataset, valid_dataset) ← build_dataset_split unk_first n_train true train_rows;
  d_train ← dict_items (vocab train_dataset);
  d_valid ← dict_items (vocab valid_dataset);
  (if decide (d_train = d_valid) then mret tt else raise AssertionError);;
  let VOCAB := vocab train_dataset in
  test_dataset ← build_dataset_predefined VOCAB test_bigrams test_rows;
  mret (train_dataset, valid_dataset, test_dataset).

End Pipeline.

(** Modelled from the spec: the tokens of a row of the data in the missing
    [build_dataset], the tokenizer's, with their bigrams when asked. *)
Definition row_tokens (tokenizer : string → list string)
    (generate_bigrams_flag : bool) (sentence : string) : list string :=
  if generate_bigrams_flag then bigram_items (tokenizer sentence)
  else tokenizer sentence.

(** A tokenizer to run the pipeline on: the words between spaces. *)
Fixpoint words_from (word : string) (s : string) : list string :=
  match s with
  | EmptyString => if decide (word = EmptyString) then [] else [word]
  | String c rest =>
      if decide (c = " "%char)
      then (if decide (word = EmptyString) then [] else [word])
             ++ words_from EmptyString rest
      else words_from (String.append word (String c EmptyString)) rest
  end.

Definition whitespace_tokenizer (sentence : string) : list string :=
  words_from EmptyString sentence.

(** The outcome of a computation without the heap it leaves. *)
Definition outcome {A} (r : result (A * gmap loc pyobj)) : result A :=
  match r with
  | Ok (a, _) => Ok a
  | Raise e => Raise e
  end.

(** Adjacent pairs of a list joined by a space, by recursion on the list. *)
Fixpoint adjacent (x : list string) : list string :=
  match x with
  | [] => []
  | a :: t =>
      match t with
      | [] => []
      | b :: _ => String.append a (String.append " " b) :: adjacent t
      end
  end.

(** ** Closed forms of the epoch loops *)

(** [[f(v) for v in xs]] for code that touches no object: the first
    exception ends it. *)
Fixpoint result_mapM {A B} (f : A → result B) (xs : list A) : result (list B) :=
  match xs with
  | [] => Ok []
  | v :: xs' =>
      b ← f v;
      bs ← result_mapM f xs';
      mret (b :: bs)
  end.

(** What the body of the two loops computes for one batch with the weights
    [w]: the loss and the accuracy. *)
Definition batch_metrics `{FloatOps F} {W : Type}
    (forward : W → list (list nat) → list F)
    (criterion : list F → list F → F) (w : W) (b : batch) : result (F * F) :=
  let predictions := forward w b.1 in
  let batch_label := map f_of_nat b.2 in
  acc ← binary_accuracy predictions batch_label;
  mret (criterion predictions batch_label, acc).

(** The weights each batch of [train] is run with: the first with the initial
    weights, every next one with the weights the step before it left. *)
Fixpoint weight_trace `{FloatOps F} {W : Type}
    (optimizer_step : W → list (list nat) → list F → W)
    (w : W) (iterator : list batch) : list W :=
  match iterator with
  | [] => []
  | b :: rest =>
      w :: weight_trace optimizer_step (optimizer_step w b.1 (map f_of_nat b.2)) rest
  end.

(** The weights after one optimizer step per batch, in the iterator's
    order. *)
Definition final_weights `{FloatOps F} {W : Type}
    (optimizer_step : W → list (list nat) → list F → W)
    (w : W) (iterator : list batch) : W :=
  foldl (λ w b, optimizer_step w b.1 (map f_of_nat b.2)) w iterator.

(** The two quotients of the [return]: the sums of the per-batch values by
    the number of batches. *)
Definition epoch_mean `{FloatOps F} (ms : list (F * F)) (n : nat) : result (F * F) :=
  l ← py_truediv (tensor_sum ms.*1) n;
  a ← py_truediv (tensor_sum ms.*2) n;
  mret (l, a).

(** ** The training cell *)

Section Script.
Context `{FloatOps F}.

(** [float('inf')] and [a < b] on floats. *)
Variable f_inf : F.
Variable f_ltb : F → F → bool.

Variable W : Type.
Variable forward : W → list (list nat) → list F.
Variable criterion : list F → list F → F.
Variable optimizer_step : W → list (list nat) → list F → W.
Variable train_iterator valid_iterator : list batch.

(** The variables of the cell: the model's weights, [best_valid_loss], the
    content of the file ['tut3-model.pt'] if it exists, and the four numbers
    printed for each epoch (train loss, train accuracy, validation loss,
    validation accuracy). *)
Record run := {
  model : W;
  best_valid_loss : F;
  saved : option W;
  printed : list (F * F * F * F)
}.

(** The body of the loop over the epochs:
    <<
    train_loss, train_acc = train(model, train_iterator, optimizer, criterion, device)
    valid_loss, valid_acc = evaluate(model, valid_iterator, criterion, device)
    if valid_loss < best_valid_loss:
        best_valid_loss = valid_loss
        torch.save(model.state_dict(), 'tut3-model.pt')
    print(...)
    >> *)
Definition run_epoch (st : run) : result run :=
  '(w', (train_loss, train_acc)) ←
    train W forward criterion optimizer_step (model st) train_iterator;
  '(valid_loss, valid_acc) ← evaluate W forward criterion w' valid_iterator;
  let improved := f_ltb valid_loss (best_valid_loss st) in
  mret {| model := w';
          best_valid_loss := if improved then valid_loss else best_valid_loss st;
          saved := if improved then Some w' else saved st;
          printed := printed st ++ [(train_loss, train_acc, valid_loss, valid_acc)] |}.

(** [for epoch in range(n): ...] *)
Fixpoint run_epochs (n : nat) (st : run) : result run :=
  match n with
  | 0 => Ok st
  | S n' => st' ← run_epoch st; run_epochs n' st'
  end.

(** The cell: [best_valid_loss = float('inf')], then the loop. [file] is
    what the file holds before the cell runs. *)
Definition training_cell (N_EPOCHS : nat) (w : W) (file : option W) : result run :=
  run_epochs N_EPOCHS
    {| model := w; best_valid_loss := f_inf; saved := file; printed := [] |}.

End Script.

(** Numbers to run the training cell on: rationals with an infinity and a
    not-a-number. *)
Inductive xfloat :=
| Fin (q : Q)
| Inf
| NaN.

Definition xfloat_add (a b : xfloat) : xfloat :=
  match a, b with
  | Fin x, Fin y => Fin (x + y)
  | NaN, _ | _, NaN => NaN
  | _, _ => Inf
  end.

Definition xfloat_div (a b : xfloat) : xfloat :=
  match a, b with
  | Fin x, Fin y => if Qeq_bool y 0 then (if Qeq_bool x 0 then NaN else Inf) else Fin (x / y)
  | NaN, _ | _, NaN => NaN
  | Fin _, Inf => Fin 0
  | Inf, Fin _ => Inf
  | Inf, Inf => NaN
  end.

Definition xfloat_eqb (a b : xfloat) : bool :=
  match a, b with
  | Fin x, Fin y => Qeq_bool x y
  | Inf, Inf => true
  | _, _ => false
  end.

Definition xfloat_ltb (a b : xfloat) : bool :=
  match a, b with
  | Fin x, Fin y => negb (Qle_bool y x)
  | Fin _, Inf => true
  | _, _ => false
  end.

Definition xfloat_ops : FloatOps xfloat := {|
  f_zero := Fin 0;
  f_one := Fin 1;
  f_add := xfloat_add;
  f_div := xfloat_div;
  f_of_nat := λ n, Fin (inject_Z (Z.of_nat n));
  f_eqb := xfloat_eqb;
  f_sigmoid := λ a, match a with Fin x => Fin (soft_sigmoid x) | Inf => Fin 1 | NaN => NaN end;
  f_round := λ a, match a with Fin x => Fin (round_nearest x) | other => other end
|}.

Definition xfloat_dist (a b : xfloat) : xfloat :=
  match a, b with
  | Fin x, Fin y => Fin (Qabs (x - y))
  | _, _ => NaN
  end.

(** A model for the examples: the weight is one number, the score of a
    sentence is its length minus the weight, the loss is the sum of the
    distances of the scores to the labels, and a step adds one to the
    weight. *)
Definition toy_forward (w : Q) (sentences : list (list nat)) : list xfloat :=
  map (λ ids, Fin (inject_Z (Z.of_nat (length ids)) - w)) sentences.

Definition toy_criterion (predictions labels : list xfloat) : xfloat :=
  foldl xfloat_add (Fin 0) (zip_with xfloat_dist predictions labels).

Definition toy_step (w : Q) (sentences : list (list nat)) (labels : list xfloat) : Q :=
  (w + 1)%Q.

(** ** The FastText model *)

(** The model's code can raise an exception the data code never does. *)
Inductive model_exn :=
| IndexError
| PyExn (e : exn).

Inductive model_result (A : Type) :=
| Returns (a : A)
| Raises (e : model_exn).
Arguments Returns {A} a.
Arguments Raises {A} e.

Definition model_bind {A B} (r : model_result A) (k : A → model_result B)
  : model_result B :=
  match r with
  | Returns a => k a
  | Raises e => Raises e
  end.

#[export] Instance model_result_ret : MRet model_result := @Returns.
#[export] Instance model_result_mbind : MBind model_result :=
  λ A B k r, model_bind r k.

(** Unfolding of the notation for the model's code. *)
Ltac model_unfold :=
  unfold mbind, mret, model_result_mbind, model_result_ret, model_bind in *.

(** An operation applied to every element of a tensor's row or batch; the
    first exception ends it. *)
Fixpoint model_mapM {A B} (f : A → model_result B) (xs : list A)
  : model_result (list B) :=
  match xs with
  | [] => Returns []
  | v :: xs' =>
      b ← f v;
      bs ← model_mapM f xs';
      mret (b :: bs)
  end.

(** A two-dimensional tensor of ids, [[batch size, sent len]]: the shape is
    kept with the rows, as an empty batch still has a sentence length. *)
Record LongTensor := {
  sent_len : nat;
  sentences : list (list nat)
}.

Definition LongTensor_wf (text : LongTensor) : Prop :=
  Forall (λ s, length s = sent_len text) (sentences text).

Section Model.
Context `{FloatOps F}.

(** [a * b] on floats. *)
Variable f_mul : F → F → F.

(** The parameters of the module: [embedding.weight] of shape
    [[vocab_size, embedding_dim]], [fc.weight] of shape
    [[output_dim, embedding_dim]] and [fc.bias] of shape [[output_dim]]. *)
Record FastText := {
  embedding_weight : list (list F);
  fc_weight : list (list F);
  fc_bias : list F
}.

(** The shapes [__init__] gives the three parameters:
    <<
    self.embedding = nn.Embedding(vocab_size, embedding_dim, padding_idx=pad_idx)
    self.fc = nn.Linear(embedding_dim, output_dim)
    >> *)
Definition FastText_shape (m : FastText) (vocab_size embedding_dim output_dim : nat)
  : Prop :=
  length (embedding_weight m) = vocab_size
  ∧ Forall (λ row, length row = embedding_dim) (embedding_weight m)
  ∧ length (fc_weight m) = output_dim
  ∧ Forall (λ row, length row = embedding_dim) (fc_weight m)
  ∧ length (fc_bias m) = output_dim.

(** [self.embedding(text)]: the row of each id; an id that is not a row of
    the table raises. *)
Definition embedding_forward (weight : list (list F)) (text : LongTensor)
  : model_result (list (list (list F))) :=
  model_mapM (model_mapM (λ idx,
    match weight !! idx with
    | Some row => Returns row
    | None => Raises IndexError
    end)) (sentences text).

(** [F.avg_pool2d(embedded, (embedded.shape[1], 1)).squeeze(1)]: for each
    sentence and each embedding dimension, the sum over the sentence's
    tokens divided by the sentence length. A window of height zero is
    refused, and so is an input with no sentence or with an embedding
    dimension of zero. *)
Definition avg_pool_sentence (kernel_height : nat) (embedded : list (list F)) : list F :=
  map (λ column, f_div (tensor_sum column) (f_of_nat kernel_height)) (zip_star embedded).

(** The last dimension of a tensor [[batch size, sent len, emb dim]] with at
    least one sentence and one token. *)
Definition tensor_width (embedded : list (list (list F))) : nat :=
  match embedded with
  | (v :: _) :: _ => length v
  | _ => 0
  end.

Definition avg_pool (kernel_height : nat) (embedded : list (list (list F)))
  : model_result (list (list F)) :=
  if decide (kernel_height = 0 ∨ length embedded = 0 ∨ tensor_width embedded = 0)
  then Raises (PyExn RuntimeError)
  else Returns (map (avg_pool_sentence kernel_height) embedded).

(** [self.fc(pooled)]: for each output, the products of the input with the
    output's weights summed, plus its bias. An input whose size is not the
    layer's input size is refused. *)
Definition linear (weight : list (list F)) (bias : list F) (x : list F)
  : model_result (list F) :=
  if decide (Forall (λ row, length row = length x) weight)
  then Returns (zip_with (λ row b, f_add (tensor_sum (zip_with f_mul x row)) b) weight bias)
  else Raises (PyExn RuntimeError).

(** <<
    def forward(self, text):
        embedded = self.embedding(text)
        pooled = F.avg_pool2d(embedded, (embedded.shape[1], 1)).squeeze(1)
        return self.fc(pooled)
    >> *)
Definition FastText_forward (m : FastText) (text : LongTensor)
  : model_result (list (list F)) :=
  embedded ← embedding_forward (embedding_weight m) text;
  pooled ← avg_pool (sent_len text) embedded;
  model_mapM (linear (fc_weight m) (fc_bias m)) pooled.

(** [p.requires_grad] of the three parameters, in the order of
    [model.parameters()]: [embedding.weight], [fc.weight], [fc.bias]. A new
    module has all three set. *)
Record requires_grad := {
  embedding_weight_grad : bool;
  fc_weight_grad : bool;
  fc_bias_grad : bool
}.

(** [p.numel()] of a matrix and
    <<
    def count_parameters(model):
        return sum(p.numel() for p in model.parameters() if p.requires_grad)
    >>
    over the three parameters, each with its flag. *)
Definition numel (p : list (list F)) : nat := sum_list (map length p).

Definition count_parameters (m : FastText) (flags : requires_grad) : nat :=
  sum_list
    (map snd
       (filter (λ p : bool * nat, p.1 = true)
          [(embedding_weight_grad flags, numel (embedding_weight m));
           (fc_weight_grad flags, numel (fc_weight m));
           (fc_bias_grad flags, length (fc_bias m))])).

(** The two assignments after the model is built:
    <<
    model.embedding.weight.data[UNK_IDX] = torch.zeros(EMBEDDING_DIM)
    model.embedding.weight.data[PAD_IDX] = torch.zeros(EMBEDDING_DIM)
    >>
    An index that is not a row raises; a value of one element is broadcast
    over the row, a value of any other size than the row's is refused. *)
Definition set_embedding_row (m : FastText) (idx : nat) (row : list F)
  : model_result FastText :=
  match embedding_weight m !! idx with
  | None => Raises IndexError
  | Some old =>
      if decide (length row = length old)
      then Returns {| embedding_weight := <[idx := row]> (embedding_weight m);
                      fc_weight := fc_weight m;
                      fc_bias := fc_bias m |}
      else if decide (length row = 1)
      then Returns {| embedding_weight :=
                        <[idx := replicate (length old) (default f_zero (head row))]>
                          (embedding_weight m);
                      fc_weight := fc_weight m;
                      fc_bias := fc_bias m |}
      else Raises (PyExn RuntimeError)
  end.

Definition zero_reserved_rows (m : FastText) (UNK_IDX PAD_IDX EMBEDDING_DIM : nat)
  : model_result FastText :=
  m ← set_embedding_row m UNK_IDX (replicate EMBEDDING_DIM f_zero);
  set_embedding_row m PAD_IDX (replicate EMBEDDING_DIM f_zero).

End Model.

(** ** Single-precision numbers *)

(** The nearest integer, ties to the even one. *)
Definition round_half_even (q : Q) : Z :=
  let f := Qfloor q in
  match Qcompare (q - inject_Z f) (1 # 2) with
  | Lt => f
  | Gt => (f + 1)%Z
  | Eq => if Z.even f then f else (f + 1)%Z
  end.

(** For a positive rational, the exponent [e] with [2^e <= q < 2^(e+1)]. *)
Definition binary_exponent (q : Q) : Z :=
  let e0 := (Z.log2 (Qnum q) - Z.log2 (Z.pos (Qden q)))%Z in
  if Qle_bool (Qpower 2 e0) q then e0 else (e0 - 1)%Z.

(** The float32 nearest to a rational: 24 significant bits, ties to even.
    Overflow and subnormal numbers are left out: the quotients of
    [binary_accuracy] are far from both. *)
Definition round_f32 (q : Q) : Q :=
  if Qeq_bool q 0 then 0%Q
  else
    let e := binary_exponent (Qabs q) in
    let m := round_half_even (Qabs q * Qpower 2 (23 - e)) in
    let v := Qred (inject_Z m * Qpower 2 (e - 23)) in
    if Qle_bool 0 q then v else Qopp v.

(** float32 arithmetic on the rationals it represents: every sum and
    quotient is rounded to the nearest float32. Sigmoid and rounding stay
    parameters. *)
Definition f32_ops (sigmoid round : Q → Q) : FloatOps Q := {|
  f_zero := 0%Q;
  f_one := 1%Q;
  f_add := λ a b, round_f32 (a + b);
  f_div := λ a b, round_f32 (a / b);
  f_of_nat := λ n, round_f32 (inject_Z (Z.of_nat n));
  f_eqb := Qeq_bool;
  f_sigmoid := sigmoid;
  f_round := round
|}.

(** * Properties *)

(** ** Bigram augmentation *)

Section ListFacts.
Context {A B : Type}.

Lemma foldl_snoc_map (f : B → A) (ys : list B) (acc : list A) :
  foldl (λ acc y, acc ++ [f y]) acc ys = acc ++ map f ys.
Proof.
  revert acc. induction ys as [|y ys IH]; intros acc; simpl.
  - by rewrite app_nil_r.
  - rewrite IH. by rewrite <- app_assoc.
Qed.

Lemma zip_star_pair (a b : list A) :
  zip_star [a; b] = zip_with (λ u v, [u; v]) a b.
Proof.
  simpl. revert b. induction a as [|u a IH]; intros [|v b]; simpl; try done.
  by rewrite IH.
Qed.

Lemma zip_star_length_pair (a b : list A) :
  length (zip_star [a; b]) = min (length a) (length b).
Proof. rewrite zip_star_pair. apply length_zip_with. Qed.
End ListFacts.

Lemma adjacent_cons (a b : string) (t : list string) :
  adjacent (a :: b :: t)
  = String.append a (String.append " " b) :: adjacent (b :: t).
Proof. reflexivity. Qed.

Lemma n_grams_adjacent (x : list string) :
  map (join " ") (zip_star (map (λ i, drop i x) (range 2))) = adjacent x.
Proof.
  change (map (λ i, drop i x) (range 2)) with [x; drop 1 x].
  rewrite zip_star_pair.
  induction x as [|a [|b t] IH]; simpl; try done.
  f_equal. exact IH.
Qed.

Lemma bigrams_spec_adjacent (x : list string) :
  bigrams_spec x = adjacent x.
Proof.
  unfold bigrams_spec.
  induction x as [|a [|b t] IH]; try done.
  replace (length (a :: b :: t) - 1) with (S (length (b :: t) - 1))
    by (simpl; lia).
  rewrite <- cons_seq, <- fmap_S_seq, adjacent_cons.
  rewrite <- IH. rewrite map_cons. f_equal.
  rewrite <- list_fmap_compose. apply map_ext. by intros i.
Qed.

Lemma bigram_items_eq (x : list string) :
  bigram_items x = x ++ bigrams_spec x.
Proof.
  unfold bigram_items. rewrite foldl_snoc_map.
  by rewrite n_grams_adjacent, bigrams_spec_adjacent.
Qed.

Lemma bigrams_spec_length (x : list string) :
  length (bigrams_spec x) = length x - 1.
Proof. unfold bigrams_spec. by rewrite length_map, length_seq. Qed.

Lemma bigram_items_length (x : list string) :
  length (bigram_items x) = 2 * length x - 1.
Proof. rewrite bigram_items_eq, length_app, bigrams_spec_length. lia. Qed.

Lemma for_each_append (x : loc) (f : list string → string)
    (n_grams : list (list string)) (h : gmap loc pyobj) (items : list string) :
  h !! x = Some (PyList items) →
  for_each n_grams (λ n_gram, list_append x (f n_gram)) h
  = Ok (tt, <[x := PyList (foldl (λ acc n_gram, acc ++ [f n_gram]) items n_grams)]> h).
Proof.
  revert h items. induction n_grams as [|g gs IH]; intros h items Hx; simpl.
  - unfold Py.ret. by rewrite insert_id.
  - unfold Py.bind, list_append at 1. rewrite Hx.
    rewrite (IH _ (items ++ [f g])) by apply lookup_insert_eq.
    by rewrite insert_insert_eq.
Qed.

(** [generate_bigrams] writes the augmented items into the object it was
    given and returns the reference it was given. *)
Lemma generate_bigrams_run (x : loc) (h : gmap loc pyobj) (items : list string) :
  h !! x = Some (PyList items) →
  generate_bigrams x h = Ok (x, <[x := PyList (bigram_items items)]> h).
Proof.
  intros Hx. unfold generate_bigrams. py_unfold. simpl.
  unfold Py.bind, Py.ret, slice_from. repeat (rewrite Hx; simpl).
  rewrite (for_each_append x (join " ") _ h items Hx).
  reflexivity.
Qed.

Lemma call_generate_bigrams_eq (tokens : list string) :
  call_generate_bigrams tokens = Ok (bigram_items tokens).
Proof.
  unfold call_generate_bigrams. py_unfold. unfold new_list.
  rewrite (generate_bigrams_run _ _ tokens) by apply lookup_insert_eq.
  unfold list_items. by rewrite lookup_insert_eq.
Qed.

(** C1: for every token sequence, [generate_bigrams] returns the tokens
    followed by, for each position [i] from 0 to [len(x)-2] from left to
    right, [x[i]] and [x[i+1]] joined by one space; nothing is removed, so
    repeated bigrams stay. *)
Theorem generate_bigrams_spec (tokens : list string) :
  call_generate_bigrams tokens = Ok (tokens ++ bigrams_spec tokens).
Proof. by rewrite call_generate_bigrams_eq, bigram_items_eq. Qed.

(** C2: on a token sequence of length at least 2, [generate_bigrams] appends
    exactly [len(x)-1] bigrams, and the result has length [2*len(x)-1]. *)
Theorem generate_bigrams_count (tokens : list string) :
  2 ≤ length tokens →
  ∃ bigrams,
    call_generate_bigrams tokens = Ok (tokens ++ bigrams)
    ∧ length bigrams = length tokens - 1
    ∧ length (tokens ++ bigrams) = 2 * length tokens - 1.
Proof.
  intros Hlen. exists (bigrams_spec tokens).
  rewrite call_generate_bigrams_eq, bigram_items_eq.
  rewrite length_app, bigrams_spec_length. repeat split; lia.
Qed.

Lemma generate_bigrams_count_witness :
  ∃ bigrams,
    call_generate_bigrams ["how"; "are"; "you"; "?"]
    = Ok (["how"; "are"; "you"; "?"] ++ bigrams)
    ∧ length bigrams = length ["how"; "are"; "you"; "?"] - 1
    ∧ length (["how"; "are"; "you"; "?"] ++ bigrams)
      = 2 * length ["how"; "are"; "you"; "?"] - 1.
Proof. apply (generate_bigrams_count ["how"; "are"; "you"; "?"]). simpl. lia. Defined.

(** C3: the empty sequence and every one-token sequence come back as they
    are, with no bigram appended, and the call returns a list for every
    token sequence: it never raises. *)
Theorem generate_bigrams_short_total :
  call_generate_bigrams [] = Ok []
  ∧ (∀ tok, call_generate_bigrams [tok] = Ok [tok])
  ∧ (∀ tokens, ∃ r, call_generate_bigrams tokens = Ok r).
Proof.
  split; [|split].
  - by rewrite call_generate_bigrams_eq.
  - intros tok. by rewrite call_generate_bigrams_eq.
  - intros tokens. eexists. apply call_generate_bigrams_eq.
Qed.

(** C4: the notebook's example call. *)
Theorem generate_bigrams_example :
  call_generate_bigrams ["This"; "film"; "is"; "terrible"]
  = Ok ["This"; "film"; "is"; "terrible"; "This film"; "film is"; "is terrible"].
Proof. vm_compute. reflexivity. Qed.

(** ** Mutation in place *)

Lemma bigram_items_twice_length (x : list string) :
  length (bigram_items (bigram_items x)) = 4 * length x - 3.
Proof. rewrite !bigram_items_length. lia. Qed.

Lemma new_list_fresh (h : gmap loc pyobj) :
  h !! fresh (dom h) = None.
Proof. apply not_elem_of_dom, is_fresh. Qed.

Lemma predict_tokenized_run (tokenizer : string → list string)
    (sentence : string) (h : gmap loc pyobj) :
  predict_tokenized tokenizer sentence h
  = Ok (fresh (dom h),
        <[fresh (dom h) := PyList (bigram_items (tokenizer sentence))]> h).
Proof.
  unfold predict_tokenized. py_unfold. unfold new_list.
  rewrite (generate_bigrams_run _ _ (tokenizer sentence)) by apply lookup_insert_eq.
  by rewrite insert_insert_eq.
Qed.

(** C8: [generate_bigrams] is not idempotent. It writes the bigrams into the
    list object it is given and returns that same reference; a second call on
    it appends the bigrams of the augmented list, so for [len(x) >= 2] the
    list after two calls, of length [4*len(x)-3], differs from the list after
    one, of length [2*len(x)-1]. The list [predict_sentiment] passes is a
    new object on every call: no object already in the heap is written. *)
Theorem generate_bigrams_not_idempotent
    (h : gmap loc pyobj) (x : loc) (items : list string) :
  h !! x = Some (PyList items) →
  2 ≤ length items →
  ∃ once twice,
    generate_bigrams x h = Ok (x, <[x := PyList once]> h)
    ∧ generate_bigrams x (<[x := PyList once]> h) = Ok (x, <[x := PyList twice]> h)
    ∧ twice ≠ once
    ∧ length once = 2 * length items - 1
    ∧ length twice = 4 * length items - 3
    ∧ (∀ (tokenizer : string → list string) sentence (h0 : gmap loc pyobj),
         ∃ fresh_list,
           h0 !! fresh_list = None
           ∧ predict_tokenized tokenizer sentence h0
             = Ok (fresh_list,
                   <[fresh_list := PyList (bigram_items (tokenizer sentence))]> h0)).
Proof.
  intros Hx Hlen.
  exists (bigram_items items), (bigram_items (bigram_items items)).
  split; [by apply generate_bigrams_run|].
  split.
  { rewrite (generate_bigrams_run _ _ (bigram_items items)) by apply lookup_insert_eq.
    by rewrite insert_insert_eq. }
  split.
  { intros Heq. apply (f_equal length) in Heq.
    rewrite bigram_items_twice_length, bigram_items_length in Heq. lia. }
  split; [apply bigram_items_length|].
  split; [apply bigram_items_twice_length|].
  intros tokenizer sentence h0. exists (fresh (dom h0)). split.
  - by apply new_list_fresh.
  - apply predict_tokenized_run.
Qed.

Lemma generate_bigrams_not_idempotent_witness :
  ∃ once twice,
    generate_bigrams 0 {[0 := PyList ["so"; "good"]]}
    = Ok (0, <[0 := PyList once]> {[0 := PyList ["so"; "good"]]})
    ∧ generate_bigrams 0 (<[0 := PyList once]> {[0 := PyList ["so"; "good"]]})
      = Ok (0, <[0 := PyList twice]> {[0 := PyList ["so"; "good"]]})
    ∧ twice ≠ once
    ∧ length once = 2 * length ["so"; "good"] - 1
    ∧ length twice = 4 * length ["so"; "good"] - 3
    ∧ (∀ (tokenizer : string → list string) sentence (h0 : gmap loc pyobj),
         ∃ fresh_list,
           h0 !! fresh_list = None
           ∧ predict_tokenized tokenizer sentence h0
             = Ok (fresh_list,
                   <[fresh_list := PyList (bigram_items (tokenizer sentence))]> h0)).
Proof.
  apply (generate_bigrams_not_idempotent {[0 := PyList ["so"; "good"]]} 0 ["so"; "good"]).
  - reflexivity.
  - simpl. lia.
Defined.

Example generate_bigrams_twice :
  bigram_items (bigram_items ["so"; "good"])
  = ["so"; "good"; "so good"; "so good"; "good so good"].
Proof. reflexivity. Qed.

(** ** Epoch averages *)

(** C9: [train] and [evaluate] divide the epoch sums by [len(iterator)] with
    no guard: on an iterator of zero batches both raise ZeroDivisionError
    instead of returning. *)
Theorem train_evaluate_empty_iterator `{FloatOps F} (W : Type)
    (forward : W → list (list nat) → list F)
    (criterion : list F → list F → F)
    (optimizer_step : W → list (list nat) → list F → W) (w : W) :
  train W forward criterion optimizer_step w [] = Raise ZeroDivisionError
  ∧ evaluate W forward criterion w [] = Raise ZeroDivisionError.
Proof. split; reflexivity. Qed.

Example evaluate_one_batch :
  evaluate (H := Q_ops soft_sigmoid round_nearest) unit
    (λ _ sentences, map (λ ids, inject_Z (Z.of_nat (length ids)) - 2)%Q sentences)
    (λ _ _, 1 # 2)%Q tt [([[5; 6; 7]; [8]], [1; 1])]
  = Ok (1 # 2, 1 # 2)%Q.
Proof. vm_compute. reflexivity. Qed.

(** ** Accuracy of a batch *)

Section Accuracy.
Variables sigmoid round : Q → Q.

#[local] Instance accuracy_ops : FloatOps Q := Q_ops sigmoid round.

Lemma tensor_sum_float_acc (t : list bool) (acc : Q) :
  (foldl Qplus acc (tensor_float t) == acc + inject_Z (Z.of_nat (count_true t)))%Q.
Proof.
  revert acc. induction t as [|b t IH]; intros acc.
  - change (acc == acc + 0)%Q. ring.
  - change (foldl Qplus acc (tensor_float (b :: t)))
      with (foldl Qplus (acc + (if b then 1 else 0))%Q (tensor_float t)).
    rewrite IH. unfold count_true. destruct b.
    + rewrite filter_cons_True by done. cbn [length].
      rewrite Nat2Z.inj_succ, <- Z.add_1_l, inject_Z_plus. ring.
    + rewrite filter_cons_False by done. ring.
Qed.

Lemma tensor_sum_float (t : list bool) :
  (tensor_sum (tensor_float t) == inject_Z (Z.of_nat (count_true t)))%Q.
Proof.
  unfold tensor_sum. rewrite tensor_sum_float_acc.
  change f_zero with 0%Q. ring.
Qed.

Lemma count_true_zip (preds y : list Q) :
  count_true (zip_with f_eqb (map (λ p, f_round (f_sigmoid p)) preds) y)
  = count_correct preds y.
Proof.
  unfold count_true, count_correct.
  revert y. induction preds as [|p preds IH]; intros [|l y]; try done.
  cbn [map zip_with zip].
  destruct (f_eqb (f_round (f_sigmoid p)) l) eqn:E.
  - rewrite filter_cons_True by done.
    rewrite (filter_cons_True _ (p, l)) by (cbn [fst snd]; by rewrite E).
    cbn [length]. by rewrite IH.
  - rewrite filter_cons_False by done.
    rewrite (filter_cons_False _ (p, l)) by (cbn [fst snd]; by rewrite E).
    apply IH.
Qed.

Lemma count_correct_le (preds y : list Q) :
  count_correct preds y ≤ length preds.
Proof.
  unfold count_correct.
  etrans; [apply length_filter|]. rewrite length_zip. lia.
Qed.

End Accuracy.



Example binary_accuracy_half :
  binary_accuracy (H := Q_ops soft_sigmoid round_nearest)
    [3 # 1; -(2 # 1); 1 # 2; -(1 # 4)]%Q [1; 0; 0; 1]%Q = Ok (2 # 4)%Q.
Proof. vm_compute. reflexivity. Qed.

(** ** Vocabulary *)

Lemma add_token_lookup (v : gmap string nat) (tok t : string) (i : nat) :
  v !! t = Some i → add_token v tok !! t = Some i.
Proof.
  intros Ht. unfold add_token. destruct (v !! tok) eqn:E; [done|].
  rewrite lookup_insert_ne; [done|]. intros ->. congruence.
Qed.

Lemma foldl_add_token_lookup (toks : list string) (v : gmap string nat)
    (t : string) (i : nat) :
  v !! t = Some i → foldl add_token v toks !! t = Some i.
Proof.
  revert v. induction toks as [|tok toks IH]; intros v Ht; simpl; [done|].
  by apply IH, add_token_lookup.
Qed.

Lemma vocab_wf_empty : vocab_wf ∅.
Proof.
  split.
  - intros i. rewrite map_size_empty. split; [lia|].
    intros [t Ht]. by rewrite lookup_empty in Ht.
  - intros t1 t2 i Ht. by rewrite lookup_empty in Ht.
Qed.

Lemma add_token_wf (v : gmap string nat) (tok : string) :
  vocab_wf v → vocab_wf (add_token v tok).
Proof.
  intros [Hcontig Hinj]. unfold add_token.
  destruct (v !! tok) eqn:E; [by split|].
  split.
  - intros i. rewrite map_size_insert_None by done. split.
    + intros Hi. destruct (decide (i = size v)) as [->|Hne].
      * exists tok. apply lookup_insert_eq.
      * destruct (proj1 (Hcontig i)) as [t Ht]; [lia|].
        exists t. rewrite lookup_insert_ne; [done|]. intros ->. congruence.
    + intros [t Ht]. destruct (decide (tok = t)) as [->|Hne].
      * rewrite lookup_insert_eq in Ht. injection Ht as <-. lia.
      * rewrite lookup_insert_ne in Ht by done.
        assert (i < size v) by (apply Hcontig; eauto). lia.
  - intros t1 t2 i H1 H2.
    destruct (decide (tok = t1)) as [<-|Hne1];
      destruct (decide (tok = t2)) as [<-|Hne2]; [done| | |].
    + rewrite lookup_insert_eq in H1. injection H1 as <-.
      rewrite lookup_insert_ne in H2 by done.
      assert (size v < size v) by (apply Hcontig; eauto). lia.
    + rewrite lookup_insert_eq in H2. injection H2 as <-.
      rewrite lookup_insert_ne in H1 by done.
      assert (size v < size v) by (apply Hcontig; eauto). lia.
    + rewrite lookup_insert_ne in H1, H2 by done. by eapply Hinj.
Qed.

Lemma foldl_add_token_wf (toks : list string) (v : gmap string nat) :
  vocab_wf v → vocab_wf (foldl add_token v toks).
Proof.
  revert v. induction toks as [|tok toks IH]; intros v Hv; simpl; [done|].
  by apply IH, add_token_wf.
Qed.

Lemma build_vocab_wf (unk_first : bool) (corpus : list (list string)) :
  vocab_wf (build_vocab unk_first corpus).
Proof. unfold build_vocab. do 2 apply foldl_add_token_wf. apply vocab_wf_empty. Qed.

Lemma build_vocab_unk (unk_first : bool) (corpus : list (list string)) :
  build_vocab unk_first corpus !! "<unk>" = Some (unk_id unk_first).
Proof.
  unfold build_vocab. apply foldl_add_token_lookup.
  destruct unk_first; vm_compute; reflexivity.
Qed.

Lemma build_vocab_pad (unk_first : bool) (corpus : list (list string)) :
  build_vocab unk_first corpus !! "<pad>" = Some (pad_id unk_first).
Proof.
  unfold build_vocab. apply foldl_add_token_lookup.
  destruct unk_first; vm_compute; reflexivity.
Qed.

(** ** Vectorization *)

Lemma token_id_known (d : gmap string nat) (tok : string) (i : nat) :
  d !! tok = Some i → token_id d tok = Ok i.
Proof. intros Ht. unfold token_id. by rewrite Ht. Qed.

Lemma token_id_unknown (d : gmap string nat) (tok : string) (u : nat) :
  d !! tok = None → d !! "<unk>" = Some u → token_id d tok = Ok u.
Proof. intros Ht Hu. unfold token_id. by rewrite Ht, Hu. Qed.

Lemma token_id_total (d : gmap string nat) (tok : string) :
  is_Some (d !! "<unk>") → ∃ i, token_id d tok = Ok i.
Proof.
  intros [u Hu]. destruct (d !! tok) as [i|] eqn:E.
  - exists i. by apply token_id_known.
  - exists u. by apply token_id_unknown.
Qed.

Lemma vectorize_items_total (d : gmap string nat) (toks : list string) :
  is_Some (d !! "<unk>") →
  ∃ ids, vectorize_items d toks = Ok ids
         ∧ Forall2 (λ tok i, token_id d tok = Ok i) toks ids.
Proof.
  intros Hu. induction toks as [|tok toks [ids [IH1 IH2]]].
  - exists []. by split.
  - destruct (token_id_total d tok Hu) as [i Hi].
    exists (i :: ids). split.
    + simpl. py_unfold. by rewrite Hi, IH1.
    + by constructor.
Qed.

Lemma comprehension_token_id (d : gmap string nat) (toks : list string)
    (h : gmap loc pyobj) :
  comprehension toks (λ tok h0,
    match token_id d tok with
    | Ok i => Ok (i, h0)
    | Raise e => Raise e
    end) h
  = match vectorize_items d toks with
    | Ok ids => Ok (ids, h)
    | Raise e => Raise e
    end.
Proof.
  induction toks as [|tok toks IH]; simpl; [done|].
  py_unfold. destruct (token_id d tok) as [i|e]; [|done].
  rewrite IH. by destruct (vectorize_items d toks).
Qed.

(** [vectorize] reads the dict and the list and leaves the heap as it was. *)
Lemma vectorize_run (VOCAB x : loc) (h : gmap loc pyobj)
    (d : gmap string nat) (toks : list string) :
  h !! VOCAB = Some (PyDict d) →
  h !! x = Some (PyList toks) →
  vectorize VOCAB x h
  = match vectorize_items d toks with
    | Ok ids => Ok (ids, h)
    | Raise e => Raise e
    end.
Proof.
  intros Hv Hx. unfold vectorize. py_unfold.
  unfold dict_items, list_items. rewrite Hv, Hx.
  apply comprehension_token_id.
Qed.

(** C5: with a vocabulary made by the builder, [vectorize] returns for every
    token sequence, and at every position that holds a token absent from the
    vocabulary the id is the reserved id of ["<unk>"]: no error for
    out-of-vocabulary input. *)
Theorem vectorize_unknown_token (unk_first : bool) (corpus : list (list string))
    (h : gmap loc pyobj) (VOCAB x : loc) (toks : list string)
    (i : nat) (tok : string) :
  h !! VOCAB = Some (PyDict (build_vocab unk_first corpus)) →
  h !! x = Some (PyList toks) →
  toks !! i = Some tok →
  build_vocab unk_first corpus !! tok = None →
  ∃ ids,
    vectorize VOCAB x h = Ok (ids, h)
    ∧ ids !! i = Some (unk_id unk_first)
    ∧ build_vocab unk_first corpus !! "<unk>" = Some (unk_id unk_first).
Proof.
  intros Hv Hx Hi Htok.
  pose proof (build_vocab_unk unk_first corpus) as Hu.
  destruct (vectorize_items_total (build_vocab unk_first corpus) toks)
    as [ids [Hids Hall]]; [by eexists|].
  exists ids. split; [|split; [|done]].
  - by rewrite (vectorize_run _ _ _ _ _ Hv Hx), Hids.
  - destruct (Forall2_lookup_l _ _ _ _ _ Hall Hi) as [j [Hj Hid]].
    rewrite (token_id_unknown _ _ _ Htok Hu) in Hid. by injection Hid as <-.
Qed.

Lemma vectorize_unknown_token_witness :
  ∃ ids,
    vectorize 0 1 {[0 := PyDict (build_vocab false [["good"; "film"]]);
                    1 := PyList ["good"; "movie"]]}
    = Ok (ids, {[0 := PyDict (build_vocab false [["good"; "film"]]);
                 1 := PyList ["good"; "movie"]]})
    ∧ ids !! 1 = Some (unk_id false)
    ∧ build_vocab false [["good"; "film"]] !! "<unk>" = Some (unk_id false).
Proof.
  apply (vectorize_unknown_token false [["good"; "film"]] _ 0 1
           ["good"; "movie"] 1 "movie").
  - reflexivity.
  - reflexivity.
  - reflexivity.
  - vm_compute. reflexivity.
Defined.

Example vectorize_example :
  outcome (vectorize 0 1 {[0 := PyDict (build_vocab false [["good"; "film"]]);
                           1 := PyList ["good"; "movie"]]})
  = Ok [2; 1].
Proof. vm_compute. reflexivity. Qed.

(** ** The inference pipeline *)

Lemma predict_indexed_run (tokenizer : string → list string) (VOCAB : loc)
    (sentence : string) (h : gmap loc pyobj) (d : gmap string nat) :
  h !! VOCAB = Some (PyDict d) →
  predict_indexed tokenizer VOCAB sentence h
  = match vectorize_items d (bigram_items (tokenizer sentence)) with
    | Ok ids =>
        Ok (ids, <[fresh (dom h) := PyList (bigram_items (tokenizer sentence))]> h)
    | Raise e => Raise e
    end.
Proof.
  intros Hv. unfold predict_indexed. py_unfold.
  rewrite predict_tokenized_run.
  apply vectorize_run.
  - rewrite lookup_insert_ne; [done|].
    intros Heq. pose proof (new_list_fresh h) as Hf. congruence.
  - apply lookup_insert_eq.
Qed.

Lemma predict_indexed_keeps_vocab (VOCAB : loc) (h : gmap loc pyobj)
    (o : pyobj) (items : list string) :
  h !! VOCAB = Some o →
  <[fresh (dom h) := PyList items]> h !! VOCAB = Some o.
Proof.
  intros Hv. rewrite lookup_insert_ne; [done|].
  intros Heq. pose proof (new_list_fresh h) as Hf. congruence.
Qed.

(** C7: the pipeline tokenize, [generate_bigrams], [vectorize] of
    [predict_sentiment] is deterministic. With the vocabulary of the builder
    in place, a run on a sentence returns an id sequence, a second run in the
    heap the first one left returns the same sequence, and so does a run from
    any other heap that holds the same vocabulary. *)
Theorem predict_indexed_deterministic (tokenizer : string → list string)
    (unk_first : bool) (corpus : list (list string)) (VOCAB : loc)
    (sentence : string) (h : gmap loc pyobj) :
  h !! VOCAB = Some (PyDict (build_vocab unk_first corpus)) →
  ∃ ids h1 h2,
    predict_indexed tokenizer VOCAB sentence h = Ok (ids, h1)
    ∧ predict_indexed tokenizer VOCAB sentence h1 = Ok (ids, h2)
    ∧ ∀ h0, h0 !! VOCAB = Some (PyDict (build_vocab unk_first corpus)) →
            outcome (predict_indexed tokenizer VOCAB sentence h0) = Ok ids.
Proof.
  intros Hv.
  destruct (vectorize_items_total (build_vocab unk_first corpus)
              (bigram_items (tokenizer sentence))) as [ids [Hids _]].
  { rewrite build_vocab_unk. by eexists. }
  exists ids. do 2 eexists. split; [|split].
  - rewrite (predict_indexed_run _ _ _ _ _ Hv), Hids. reflexivity.
  - rewrite (predict_indexed_run _ _ _ _ (build_vocab unk_first corpus)), Hids;
      [reflexivity|]. by apply predict_indexed_keeps_vocab.
  - intros h0 Hv0. by rewrite (predict_indexed_run _ _ _ _ _ Hv0), Hids.
Qed.

Lemma predict_indexed_deterministic_witness :
  ∃ ids h1 h2,
    predict_indexed whitespace_tokenizer 0 "good film"
      {[0 := PyDict (build_vocab false [["good"; "film"; "good film"]])]}
    = Ok (ids, h1)
    ∧ predict_indexed whitespace_tokenizer 0 "good film" h1 = Ok (ids, h2)
    ∧ ∀ h0, h0 !! 0 = Some (PyDict (build_vocab false [["good"; "film"; "good film"]])) →
            outcome (predict_indexed whitespace_tokenizer 0 "good film" h0) = Ok ids.
Proof.
  apply (predict_indexed_deterministic whitespace_tokenizer false
           [["good"; "film"; "good film"]] 0 "good film").
  reflexivity.
Defined.

Example predict_indexed_example :
  outcome (predict_indexed whitespace_tokenizer 0 "good film"
             {[0 := PyDict (build_vocab false [["good"; "film"; "good film"]])]})
  = Ok [2; 3; 4].
Proof. vm_compute. reflexivity. Qed.

(** ** Datasets and their vocabulary *)

Section Datasets.
Variable tokenizer : string → list string.

Lemma tokenize_rows_run (flag : bool) (rows : list (string * nat))
    (h : gmap loc pyobj) :
  ∃ rows' h',
    tokenize_rows tokenizer flag rows h = Ok (rows', h')
    ∧ h ⊆ h'
    ∧ Forall2 (λ r r', h' !! r'.1 = Some (PyList (row_tokens tokenizer flag r.1)))
              rows rows'.
Proof.
  revert h. induction rows as [|[sentence label] rows IH]; intros h.
  - exists [], h. by repeat split.
  - set (x := fresh (dom h)).
    set (h1 := <[x := PyList (row_tokens tokenizer flag sentence)]> h).
    assert (Hsub : h ⊆ h1) by apply insert_subseteq, new_list_fresh.
    assert (Hhead : (x0 ← new_list (tokenizer sentence);
                     x1 ← (if flag then generate_bigrams x0 else mret x0);
                     mret (x1, label)) h = Ok ((x, label), h1)).
    { py_unfold. unfold new_list. fold x. destruct flag.
      - rewrite (generate_bigrams_run _ _ (tokenizer sentence))
          by apply lookup_insert_eq.
        by rewrite insert_insert_eq.
      - reflexivity. }
    destruct (IH h1) as (rows' & h' & Hrun & Hsub' & Hall).
    exists ((x, label) :: rows'), h'. split; [|split].
    + unfold tokenize_rows in *. cbn [comprehension].
      unfold Py.bind at 1. rewrite Hhead.
      unfold Py.bind at 1. rewrite Hrun. reflexivity.
    + by etrans.
    + constructor; [|done]. cbn [fst].
      eapply lookup_weaken; [|exact Hsub']. apply lookup_insert_eq.
Qed.

Lemma corpus_of_run (rows' : list (loc * nat)) (toks : list (list string))
    (h : gmap loc pyobj) :
  Forall2 (λ t (r' : loc * nat), h !! r'.1 = Some (PyList t)) toks rows' →
  corpus_of rows' h = Ok (toks, h).
Proof.
  induction 1 as [|t [x label] toks rows' Hx _ IH]; [done|].
  unfold corpus_of in *. cbn [comprehension]. cbn [fst] in Hx.
  unfold Py.bind at 1. unfold list_items at 1. rewrite Hx.
  unfold Py.bind at 1. by rewrite IH.
Qed.

Lemma build_examples_run (v : loc) (d : gmap string nat)
    (rows' : list (loc * nat)) (h : gmap loc pyobj) :
  h !! v = Some (PyDict d) →
  is_Some (d !! "<unk>") →
  Forall (λ r' : loc * nat, ∃ items, h !! r'.1 = Some (PyList items)) rows' →
  ∃ ex, build_examples v rows' h = Ok (ex, h) ∧ length ex = length rows'.
Proof.
  intros Hv Hu. induction 1 as [|[x label] rows' [items Hx] _ [ex [IH Hlen]]].
  - by exists [].
  - cbn [fst] in Hx.
    destruct (vectorize_items_total d items Hu) as [ids [Hids _]].
    exists ((ids, label) :: ex). split; [|simpl; by rewrite Hlen].
    unfold build_examples in *. cbn [comprehension]. py_unfold.
    rewrite (vectorize_run _ _ _ _ _ Hv Hx), Hids. by rewrite IH.
Qed.

Lemma row_lists_weaken (rows : list (string * nat)) (rows' : list (loc * nat))
    (flag : bool) (h h' : gmap loc pyobj) :
  h ⊆ h' →
  Forall2 (λ r r', h !! r'.1 = Some (PyList (row_tokens tokenizer flag r.1)))
          rows rows' →
  Forall (λ r' : loc * nat, ∃ items, h' !! r'.1 = Some (PyList items)) rows'.
Proof.
  intros Hsub. induction 1 as [|r r' rows rows' Hr _ IH]; constructor; [|done].
  eexists. by eapply lookup_weaken.
Qed.

(** The split call: both datasets carry the reference of the one new
    vocabulary object, built from all rows. *)
Lemma build_dataset_split_run (unk_first : bool) (n_train : nat) (flag : bool)
    (rows : list (string * nat)) (h : gmap loc pyobj) :
  ∃ train_dataset valid_dataset h',
    build_dataset_split tokenizer unk_first n_train flag rows h
    = Ok ((train_dataset, valid_dataset), h')
    ∧ vocab train_dataset = vocab valid_dataset
    ∧ h !! vocab train_dataset = None
    ∧ h' !! vocab train_dataset
      = Some (PyDict (build_vocab unk_first
                        (map (λ r, row_tokens tokenizer flag r.1) rows)))
    ∧ h ⊆ h'.
Proof.
  destruct (tokenize_rows_run flag rows h) as (rows' & h1 & Hrun & Hsub & Hall).
  set (corpus := map (λ r : string * nat, row_tokens tokenizer flag r.1) rows).
  set (v := fresh (dom h1)).
  set (h2 := <[v := PyDict (build_vocab unk_first corpus)]> h1).
  assert (Hsub2 : h1 ⊆ h2) by apply insert_subseteq, new_list_fresh.
  assert (Hv : h2 !! v = Some (PyDict (build_vocab unk_first corpus)))
    by apply lookup_insert_eq.
  assert (Hu : is_Some (build_vocab unk_first corpus !! "<unk>")).
  { rewrite build_vocab_unk. by eexists. }
  pose proof (row_lists_weaken _ _ _ _ _ Hsub2 Hall) as Hlists.
  destruct (build_examples_run v _ (take n_train rows') h2 Hv Hu)
    as [ex_train [Htrain _]]; [by apply Forall_take|].
  destruct (build_examples_run v _ (drop n_train rows') h2 Hv Hu)
    as [ex_valid [Hvalid _]]; [by apply Forall_drop|].
  exists {| examples := ex_train; vocab := v |},
         {| examples := ex_valid; vocab := v |}, h2.
  split; [|split; [done|split; [|split; [done|by etrans]]]].
  - unfold build_dataset_split. py_unfold. rewrite Hrun.
    rewrite (corpus_of_run rows' corpus).
    + unfold new_dict. fold v. fold h2. by rewrite Htrain, Hvalid.
    + unfold corpus. apply Forall2_fmap_l. exact Hall.
  - cbn [vocab]. eapply lookup_weaken_None; [|exact Hsub].
    apply new_list_fresh.
Qed.

(** The call with a predefined vocabulary: the dataset carries the given
    reference, and the objects already in the heap stay as they are. *)
Lemma build_dataset_predefined_run (v : loc) (d : gmap string nat) (flag : bool)
    (rows : list (string * nat)) (h : gmap loc pyobj) :
  h !! v = Some (PyDict d) →
  is_Some (d !! "<unk>") →
  ∃ test_dataset h',
    build_dataset_predefined tokenizer v flag rows h = Ok (test_dataset, h')
    ∧ vocab test_dataset = v
    ∧ h ⊆ h'.
Proof.
  intros Hv Hu.
  destruct (tokenize_rows_run flag rows h) as (rows' & h1 & Hrun & Hsub & Hall).
  assert (Hv1 : h1 !! v = Some (PyDict d)) by by eapply lookup_weaken.
  destruct (build_examples_run v d rows' h1 Hv1 Hu) as [ex [Hex _]].
  { by apply (row_lists_weaken rows rows' flag h1 h1). }
  exists {| examples := ex; vocab := v |}, h1. split; [|by split].
  unfold build_dataset_predefined. py_unfold. by rewrite Hrun, Hex.
Qed.
(** The notebook's data cells: one vocabulary object for the three
    datasets, holding the builder's mapping when they are done. *)
Lemma prepare_data_run (unk_first : bool) (n_train : nat) (test_bigrams : bool)
    (train_rows test_rows : list (string * nat)) (h : gmap loc pyobj) :
  ∃ train_dataset valid_dataset test_dataset h',
    prepare_data tokenizer unk_first n_train test_bigrams train_rows test_rows h
    = Ok ((train_dataset, valid_dataset, test_dataset), h')
    ∧ vocab valid_dataset = vocab train_dataset
    ∧ vocab test_dataset = vocab train_dataset
    ∧ h' !! vocab train_dataset
      = Some (PyDict (build_vocab unk_first
                        (map (λ r, row_tokens tokenizer true r.1) train_rows))).
Proof.
  destruct (build_dataset_split_run unk_first n_train true train_rows h)
    as (tr & va & h1 & Hsplit & Heq & _ & Hv & _).
  destruct (build_dataset_predefined_run (vocab tr) _ test_bigrams test_rows h1 Hv)
    as (te & h2 & Hpre & Hte & Hsub).
  { rewrite build_vocab_unk. by eexists. }
  exists tr, va, te, h2. split; [|split; [done|split; [done|]]].
  - unfold prepare_data. py_unfold. rewrite Hsplit.
    unfold dict_items. rewrite <- Heq.
    rewrite Hv. cbv beta iota. rewrite Hv.
    rewrite decide_True by done. by rewrite Hpre.
  - by eapply lookup_weaken.
Qed.
End Datasets.

(** C6: every vocabulary the builder makes has as ids exactly the numbers
    from 0 up to its size, no id belongs to two tokens, and ["<unk>"] and
    ["<pad>"] are in it at their reserved ids whatever the corpus. The
    notebook's train, validation and test datasets refer to one vocabulary
    object, which holds the builder's mapping after the data cells and still
    holds it after any run of the inference pipeline. *)
Theorem vocabulary_invariant (unk_first : bool) (corpus : list (list string)) :
  (∀ i, i < size (build_vocab unk_first corpus)
        ↔ ∃ tok, build_vocab unk_first corpus !! tok = Some i)
  ∧ (∀ tok1 tok2 i,
       build_vocab unk_first corpus !! tok1 = Some i →
       build_vocab unk_first corpus !! tok2 = Some i → tok1 = tok2)
  ∧ build_vocab unk_first corpus !! "<unk>" = Some (unk_id unk_first)
  ∧ build_vocab unk_first corpus !! "<pad>" = Some (pad_id unk_first)
  ∧ (∀ (tokenizer : string → list string) n_train test_bigrams
       train_rows test_rows (h : gmap loc pyobj),
       ∃ train_dataset valid_dataset test_dataset h',
         prepare_data tokenizer unk_first n_train test_bigrams train_rows test_rows h
         = Ok ((train_dataset, valid_dataset, test_dataset), h')
         ∧ vocab valid_dataset = vocab train_dataset
         ∧ vocab test_dataset = vocab train_dataset
         ∧ h' !! vocab train_dataset
           = Some (PyDict (build_vocab unk_first
                             (map (λ r, row_tokens tokenizer true r.1) train_rows)))
         ∧ ∀ sentence, ∃ ids h'',
             predict_indexed tokenizer (vocab train_dataset) sentence h' = Ok (ids, h'')
             ∧ h'' !! vocab train_dataset = h' !! vocab train_dataset).
Proof.
  destruct (build_vocab_wf unk_first corpus) as [Hcontig Hinj].
  split; [exact Hcontig|]. split; [exact Hinj|].
  split; [apply build_vocab_unk|]. split; [apply build_vocab_pad|].
  intros tokenizer n_train test_bigrams train_rows test_rows h.
  destruct (prepare_data_run tokenizer unk_first n_train test_bigrams
              train_rows test_rows h) as (tr & va & te & h' & Hrun & Hva & Hte & Hv).
  exists tr, va, te, h'. do 4 (split; [done|]).
  intros sentence.
  destruct (vectorize_items_total _ (bigram_items (tokenizer sentence))
              (ex_intro _ _ (build_vocab_unk unk_first
                 (map (λ r : string * nat, row_tokens tokenizer true r.1) train_rows))))
    as [ids [Hids _]].
  exists ids. eexists. split.
  - rewrite (predict_indexed_run _ _ _ _ _ Hv), Hids. reflexivity.
  - rewrite Hv. by apply predict_indexed_keeps_vocab.
Qed.

Example build_vocab_example :
  map (λ tok, build_vocab true [["a"; "b"; "a b"]; ["b"; "c"; "b c"]] !! tok)
      ["<unk>"; "<pad>"; "a"; "b"; "a b"; "c"; "b c"; "d"]
  = [Some 0; Some 1; Some 2; Some 3; Some 4; Some 5; Some 6; None]
  ∧ size (build_vocab true [["a"; "b"; "a b"]; ["b"; "c"; "b c"]]) = 7.
Proof. split; vm_compute; reflexivity. Qed.

(** * Further properties of the notebook's code *)

(** ** Bigram augmentation: the tokens can be read back *)

(** X1: the input of [generate_bigrams] is the first half, rounded up, of
    its output, so two token sequences with the same output are the same
    sequence. *)
Theorem generate_bigrams_recover (tokens : list string) :
  (∃ r, call_generate_bigrams tokens = Ok r
        ∧ take ((length r + 1) / 2) r = tokens)
  ∧ (∀ tokens', call_generate_bigrams tokens' = call_generate_bigrams tokens →
                tokens' = tokens).
Proof.
  assert (Hrec : ∀ x : list string,
             take ((length (bigram_items x) + 1) / 2) (bigram_items x) = x).
  { intros x. rewrite bigram_items_length, bigram_items_eq.
    destruct x as [|a x]; [done|].
    replace ((2 * length (a :: x) - 1 + 1) / 2) with (length (a :: x)).
    - apply take_app_length.
    - cbn [length]. replace (2 * S (length x) - 1 + 1) with (S (length x) * 2) by lia.
      by rewrite Nat.div_mul. }
  split.
  - exists (bigram_items tokens). split; [apply call_generate_bigrams_eq|apply Hrec].
  - intros tokens'. rewrite !call_generate_bigrams_eq. intros [= Heq].
    rewrite <- (Hrec tokens'), <- (Hrec tokens). by rewrite Heq.
Qed.

(** ** The epoch loops *)

Section EpochLoops.
Context `{FloatOps F}.
Variable W : Type.
Variable forward : W → list (list nat) → list F.
Variable criterion : list F → list F → F.
Variable optimizer_step : W → list (list nat) → list F → W.

Lemma batch_metrics_pair (w : W) (s : list (list nat)) (l : list nat) :
  batch_metrics forward criterion w (s, l)
  = (acc ← binary_accuracy (forward w s) (map f_of_nat l);
     mret (criterion (forward w s) (map f_of_nat l), acc)).
Proof. reflexivity. Qed.

Lemma evaluate_loop_closed (w : W) (iterator : list batch) (epoch_loss epoch_acc : F) :
  evaluate_loop W forward criterion w iterator epoch_loss epoch_acc
  = (ms ← result_mapM (batch_metrics forward criterion w) iterator;
     mret (foldl f_add epoch_loss ms.*1, foldl f_add epoch_acc ms.*2)).
Proof.
  revert epoch_loss epoch_acc.
  induction iterator as [|[s l] rest IH]; intros epoch_loss epoch_acc; [done|].
  cbn [evaluate_loop result_mapM].
  rewrite (batch_metrics_pair w s l).
  py_unfold. destruct (binary_accuracy (forward w s) (map f_of_nat l)) as [acc|e]; [|done].
  rewrite IH.
  by destruct (result_mapM (batch_metrics forward criterion w) rest).
Qed.

Lemma train_loop_closed (w : W) (iterator : list batch) (epoch_loss epoch_acc : F) :
  train_loop W forward criterion optimizer_step w iterator epoch_loss epoch_acc
  = (ms ← result_mapM (λ wb, batch_metrics forward criterion wb.1 wb.2)
            (zip (weight_trace optimizer_step w iterator) iterator);
     mret (final_weights optimizer_step w iterator,
           foldl f_add epoch_loss ms.*1, foldl f_add epoch_acc ms.*2)).
Proof.
  revert w epoch_loss epoch_acc.
  induction iterator as [|[s l] rest IH]; intros w epoch_loss epoch_acc; [done|].
  cbn [train_loop weight_trace zip zip_with result_mapM fst snd].
  rewrite (batch_metrics_pair w s l).
  py_unfold. destruct (binary_accuracy (forward w s) (map f_of_nat l)) as [acc|e]; [|done].
  rewrite IH.
  by destruct (result_mapM _ (zip _ rest)).
Qed.
(** The loop of [evaluate] as a sum over the batches. *)
Lemma evaluate_closed (w : W) (iterator : list batch) :
  evaluate W forward criterion w iterator
  = (ms ← result_mapM (batch_metrics forward criterion w) iterator;
     epoch_mean ms (length iterator)).
Proof.
  unfold evaluate. rewrite evaluate_loop_closed. py_unfold.
  by destruct (result_mapM (batch_metrics forward criterion w) iterator).
Qed.

(** X2: [evaluate] returns the sum of the per-batch losses and the sum of the
    per-batch accuracies, each divided by the number of batches: every batch
    counts once, whatever its size. The first batch that raises ends the
    epoch with its exception. *)
Theorem evaluate_mean_of_batches (w : W) (iterator : list batch) :
  evaluate W forward criterion w iterator
  = (ms ← result_mapM (batch_metrics forward criterion w) iterator;
     epoch_mean ms (length iterator)).
Proof. apply evaluate_closed. Qed.

(** The loop of [train] as a sum over the batches and their weights. *)
Lemma train_closed (w : W) (iterator : list batch) :
  train W forward criterion optimizer_step w iterator
  = (ms ← result_mapM (λ wb, batch_metrics forward criterion wb.1 wb.2)
            (zip (weight_trace optimizer_step w iterator) iterator);
     r ← epoch_mean ms (length iterator);
     mret (final_weights optimizer_step w iterator, r)).
Proof.
  unfold train. rewrite train_loop_closed. py_unfold.
  destruct (result_mapM _ (zip _ iterator)) as [ms|e]; [|done].
  unfold epoch_mean, tensor_sum. py_unfold.
  destruct (py_truediv (foldl f_add f_zero ms.*1) (length iterator)); [|done].
  by destruct (py_truediv (foldl f_add f_zero ms.*2) (length iterator)).
Qed.

(** X3: [train] runs batch [i] with the weights that the optimizer steps of
    the batches before it left, reports the sums of those per-batch losses
    and accuracies divided by the number of batches, and leaves the weights
    after one step per batch in the iterator's order. *)
Theorem train_mean_of_batches (w : W) (iterator : list batch) :
  train W forward criterion optimizer_step w iterator
  = (ms ← result_mapM (λ wb, batch_metrics forward criterion wb.1 wb.2)
            (zip (weight_trace optimizer_step w iterator) iterator);
     r ← epoch_mean ms (length iterator);
     mret (final_weights optimizer_step w iterator, r)).
Proof. apply train_closed. Qed.

Lemma binary_accuracy_same_length (preds y : list F) :
  length preds = length y → ∃ acc, binary_accuracy preds y = Ok acc.
Proof.
  intros Hlen. unfold binary_accuracy, tensor_eq.
  rewrite length_map, decide_True by done. by eexists.
Qed.

Lemma binary_accuracy_raises (preds y : list F) (e : exn) :
  binary_accuracy preds y = Raise e →
  e = RuntimeError ∧ length preds ≠ length y.
Proof.
  unfold binary_accuracy, tensor_eq. rewrite length_map.
  repeat case_decide; py_unfold; intros [= <-]; done.
Qed.

Lemma epoch_mean_nonempty (ms : list (F * F)) (n : nat) :
  n ≠ 0 → ∃ r, epoch_mean ms n = Ok r.
Proof.
  intros Hn. unfold epoch_mean, py_truediv.
  rewrite !decide_False by done. by eexists.
Qed.

Lemma epoch_mean_raises (ms : list (F * F)) (n : nat) (e : exn) :
  epoch_mean ms n = Raise e → n = 0 ∧ e = ZeroDivisionError.
Proof.
  unfold epoch_mean, py_truediv. case_decide; py_unfold; [|done].
  by intros [= <-].
Qed.

Lemma result_mapM_total {A B} (f : A → result B) (xs : list A) :
  Forall (λ v, ∃ b, f v = Ok b) xs → ∃ bs, result_mapM f xs = Ok bs.
Proof.
  induction 1 as [|v xs [b Hb] _ [bs IH]]; [by exists []|].
  exists (b :: bs). cbn [result_mapM]. py_unfold. by rewrite Hb, IH.
Qed.

Lemma result_mapM_raises {A B} (f : A → result B) (xs : list A) (e : exn) :
  result_mapM f xs = Raise e → Exists (λ v, f v = Raise e) xs.
Proof.
  induction xs as [|v xs IH]; [done|].
  cbn [result_mapM]. py_unfold. destruct (f v) as [b|e'] eqn:Hv.
  - destruct (result_mapM f xs) as [bs|e'']; [done|].
    intros [= ->]. right. by apply IH.
  - intros [= ->]. by left.
Qed.

(** X4: on an iterator with at least one batch, where the model gives as
    many predictions as the batch has labels, neither [evaluate] nor [train]
    raises. *)
Theorem epoch_loops_return (w : W) (iterator : list batch) :
  iterator ≠ [] →
  Forall (λ b : batch, ∀ w', length (forward w' b.1) = length b.2) iterator →
  (∃ r, evaluate W forward criterion w iterator = Ok r)
  ∧ (∃ r, train W forward criterion optimizer_step w iterator
          = Ok (final_weights optimizer_step w iterator, r)).
Proof.
  intros Hne Hshape.
  assert (Hn : length iterator ≠ 0) by by destruct iterator.
  assert (Hb : ∀ w' (b : batch), b ∈ iterator →
                 ∃ m, batch_metrics forward criterion w' b = Ok m).
  { intros w' b Hin. rewrite Forall_forall in Hshape.
    destruct (binary_accuracy_same_length (forward w' b.1) (map f_of_nat b.2))
      as [acc Hacc]; [rewrite length_map; by apply Hshape|].
    unfold batch_metrics. py_unfold. rewrite Hacc. by eexists. }
  split.
  - rewrite evaluate_closed.
    destruct (result_mapM_total (batch_metrics forward criterion w) iterator)
      as [ms Hms]; [apply Forall_forall; intros b Hin; by apply Hb|].
    destruct (epoch_mean_nonempty ms _ Hn) as [r Hr].
    exists r. py_unfold. by rewrite Hms, Hr.
  - rewrite train_closed.
    destruct (result_mapM_total (λ wb, batch_metrics forward criterion wb.1 wb.2)
                (zip (weight_trace optimizer_step w iterator) iterator))
      as [ms Hms].
    { apply Forall_forall. intros [w' b] Hin. apply Hb.
      eapply elem_of_zip_r, Hin. }
    destruct (epoch_mean_nonempty ms _ Hn) as [r Hr].
    exists r. py_unfold. by rewrite Hms, Hr.
Qed.

(** X5: the only exceptions of [evaluate] and [train] are the
    ZeroDivisionError of an iterator without batches and the RuntimeError of
    a batch whose predictions and labels differ in number. *)
Theorem epoch_loops_errors (w : W) (iterator : list batch) (e : exn) :
  evaluate W forward criterion w iterator = Raise e
  ∨ train W forward criterion optimizer_step w iterator = Raise e →
  (iterator = [] ∧ e = ZeroDivisionError)
  ∨ (e = RuntimeError
     ∧ Exists (λ b : batch, ∃ w', length (forward w' b.1) ≠ length b.2) iterator).
Proof.
  assert (Hb : ∀ w' (b : batch),
             batch_metrics forward criterion w' b = Raise e →
             e = RuntimeError ∧ length (forward w' b.1) ≠ length b.2).
  { intros w' b. unfold batch_metrics. py_unfold.
    destruct (binary_accuracy _ _) as [acc|e'] eqn:Hacc; [done|].
    intros [= ->]. apply binary_accuracy_raises in Hacc.
    by rewrite length_map in Hacc. }
  intros [Hev|Htr].
  - rewrite evaluate_closed in Hev. py_unfold.
    destruct (result_mapM _ iterator) as [ms|e'] eqn:Hms.
    + apply epoch_mean_raises in Hev as [Hn ->]. left.
      split; [|done]. by destruct iterator.
    + injection Hev as ->. right.
      apply result_mapM_raises in Hms.
      apply Exists_exists in Hms as (b & Hin & Hraise).
      destruct (Hb _ _ Hraise) as [-> Hlen]. split; [done|].
      apply Exists_exists. exists b. split; [done|]. by exists w.
  - rewrite train_closed in Htr. py_unfold.
    destruct (result_mapM _ (zip _ iterator)) as [ms|e'] eqn:Hms.
    + destruct (epoch_mean ms (length iterator)) as [r|e'] eqn:Hmean; [done|].
      injection Htr as ->.
      apply epoch_mean_raises in Hmean as [Hn ->]. left.
      split; [|done]. by destruct iterator.
    + injection Htr as ->. right.
      apply result_mapM_raises in Hms.
      apply Exists_exists in Hms as ([w' b] & Hin & Hraise).
      destruct (Hb _ _ Hraise) as [-> Hlen]. split; [done|].
      apply Exists_exists. exists b. split; [|by exists w'].
      eapply elem_of_zip_r, Hin.
Qed.
(** X6: on an iterator of one batch, [train] reports what [evaluate] reports
    for the weights before the optimizer step, not for the weights it
    returns. *)
Theorem train_one_batch_reports_before_step (w : W) (b : batch) :
  train W forward criterion optimizer_step w [b]
  = (r ← evaluate W forward criterion w [b];
     mret (optimizer_step w b.1 (map f_of_nat b.2), r)).
Proof.
  rewrite train_closed, evaluate_closed.
  cbn [weight_trace zip zip_with result_mapM fst snd final_weights foldl length].
  py_unfold. destruct (batch_metrics forward criterion w b) as [m|e]; [|done].
  by destruct (epoch_mean [m] 1).
Qed.

Lemma weight_trace_frozen (w : W) (iterator : list batch) :
  (∀ w' s l, optimizer_step w' s l = w') →
  zip (weight_trace optimizer_step w iterator) iterator = map (λ b, (w, b)) iterator
  ∧ final_weights optimizer_step w iterator = w.
Proof.
  intros Hfix. unfold final_weights.
  induction iterator as [|b rest [IH1 IH2]]; [done|].
  cbn [weight_trace zip zip_with map foldl]. rewrite Hfix. split; [|done].
  f_equal. exact IH1.
Qed.

Lemma result_mapM_map {A B C} (f : B → result C) (g : A → B) (xs : list A) :
  result_mapM f (map g xs) = result_mapM (λ v, f (g v)) xs.
Proof.
  induction xs as [|v xs IH]; [done|]. cbn [map result_mapM]. by rewrite IH.
Qed.

(** X7: with an optimizer whose step leaves the weights as they are, [train]
    returns those weights with exactly the result, or the exception, of
    [evaluate]. *)
Theorem train_frozen_is_evaluate (w : W) (iterator : list batch) :
  (∀ w' s l, optimizer_step w' s l = w') →
  train W forward criterion optimizer_step w iterator
  = (r ← evaluate W forward criterion w iterator; mret (w, r)).
Proof.
  intros Hfix. rewrite train_closed, evaluate_closed.
  destruct (weight_trace_frozen w iterator Hfix) as [-> ->].
  rewrite result_mapM_map. cbn [fst snd]. py_unfold.
  destruct (result_mapM _ iterator) as [ms|e]; [|done].
  by destruct (epoch_mean ms (length iterator)).
Qed.
End EpochLoops.

(** A model to run the loops on: one score per sentence, its length minus
    two; a constant loss; an optimizer that counts its steps. *)
Lemma epoch_loops_return_witness :
  (∃ r, evaluate (H := Q_ops soft_sigmoid round_nearest) nat
          (λ _ sentences, map (λ ids, inject_Z (Z.of_nat (length ids)) - 2)%Q sentences)
          (λ _ _, 1 # 2)%Q 0 [([[5; 6; 7]; [8]], [1; 1]); ([[9]], [0])] = Ok r)
  ∧ (∃ r, train (H := Q_ops soft_sigmoid round_nearest) nat
            (λ _ sentences, map (λ ids, inject_Z (Z.of_nat (length ids)) - 2)%Q sentences)
            (λ _ _, 1 # 2)%Q (λ w _ _, S w) 0 [([[5; 6; 7]; [8]], [1; 1]); ([[9]], [0])]
          = Ok (final_weights (H := Q_ops soft_sigmoid round_nearest) (λ w _ _, S w) 0
                  [([[5; 6; 7]; [8]], [1; 1]); ([[9]], [0])], r)).
Proof.
  apply (epoch_loops_return (H := Q_ops soft_sigmoid round_nearest) nat
           (λ _ sentences, map (λ ids, inject_Z (Z.of_nat (length ids)) - 2)%Q sentences)
           (λ _ _, 1 # 2)%Q (λ w _ _, S w) 0
           [([[5; 6; 7]; [8]], [1; 1]); ([[9]], [0])]).
  - discriminate.
  - repeat constructor.
Defined.

Lemma epoch_loops_errors_witness :
  ([([[5; 6; 7]; [8]], [1; 1; 0])] = [] ∧ RuntimeError = ZeroDivisionError)
  ∨ (RuntimeError = RuntimeError
     ∧ Exists (λ b : batch, ∃ w' : nat,
                 length (map (λ ids, inject_Z (Z.of_nat (length ids)) - 2)%Q b.1)
                 ≠ length b.2)
              [([[5; 6; 7]; [8]], [1; 1; 0])]).
Proof.
  apply (epoch_loops_errors (H := Q_ops soft_sigmoid round_nearest) nat
           (λ _ sentences, map (λ ids, inject_Z (Z.of_nat (length ids)) - 2)%Q sentences)
           (λ _ _, 1 # 2)%Q (λ w _ _, S w) 0
           [([[5; 6; 7]; [8]], [1; 1; 0])] RuntimeError).
  left. vm_compute. reflexivity.
Defined.

Lemma train_frozen_is_evaluate_witness :
  train (H := Q_ops soft_sigmoid round_nearest) nat
    (λ _ sentences, map (λ ids, inject_Z (Z.of_nat (length ids)) - 2)%Q sentences)
    (λ _ _, 1 # 2)%Q (λ w _ _, w) 0 [([[5; 6; 7]; [8]], [1; 1]); ([[9]], [0])]
  = (r ← evaluate (H := Q_ops soft_sigmoid round_nearest) nat
           (λ _ sentences, map (λ ids, inject_Z (Z.of_nat (length ids)) - 2)%Q sentences)
           (λ _ _, 1 # 2)%Q 0 [([[5; 6; 7]; [8]], [1; 1]); ([[9]], [0])];
     mret (0, r)).
Proof.
  apply (train_frozen_is_evaluate (H := Q_ops soft_sigmoid round_nearest) nat
           (λ _ sentences, map (λ ids, inject_Z (Z.of_nat (length ids)) - 2)%Q sentences)
           (λ _ _, 1 # 2)%Q (λ w _ _, w) 0).
  intros w' s l. reflexivity.
Defined.

(** ** The training cell: what is saved *)

Section ScriptFacts.
Context `{FloatOps F}.
Variable f_inf : F.
Variable f_ltb : F → F → bool.
Variable W : Type.
Variable forward : W → list (list nat) → list F.
Variable criterion : list F → list F → F.
Variable optimizer_step : W → list (list nat) → list F → W.
Variable train_iterator valid_iterator : list batch.

(** One epoch, spelled out: the new weights come from [train], the
    validation numbers from [evaluate] on them. *)
Lemma run_epoch_ok (st st' : run W) :
  run_epoch f_ltb W forward criterion optimizer_step train_iterator valid_iterator st
  = Ok st' →
  ∃ w' train_loss train_acc valid_loss valid_acc,
    train W forward criterion optimizer_step (model W st) train_iterator
    = Ok (w', (train_loss, train_acc))
    ∧ evaluate W forward criterion w' valid_iterator = Ok (valid_loss, valid_acc)
    ∧ model W st' = w'
    ∧ printed W st' = printed W st ++ [(train_loss, train_acc, valid_loss, valid_acc)]
    ∧ (if f_ltb valid_loss (best_valid_loss W st)
       then best_valid_loss W st' = valid_loss ∧ saved W st' = Some w'
       else best_valid_loss W st' = best_valid_loss W st ∧ saved W st' = saved W st).
Proof.
  unfold run_epoch. py_unfold.
  destruct (train _ _ _ _ _ _) as [[w' [tl ta]]|e] eqn:Htr; [|done].
  destruct (evaluate _ _ _ _ _) as [[vl va]|e] eqn:Hev; [|done].
  intros [= <-]. exists w', tl, ta, vl, va. cbn.
  do 4 (split; [done|]). by destruct (f_ltb vl (best_valid_loss W st)).
Qed.

(** X9: after the training cell, either no epoch had a validation loss below
    [float('inf')], and then [best_valid_loss] is still infinite and the file
    is what it was before the cell; or the file holds weights that [train]
    returned in some epoch, and [best_valid_loss] is the loss [evaluate]
    gives for exactly those weights on the validation iterator. *)
Theorem checkpoint_matches_best_valid_loss (N_EPOCHS : nat) (w : W)
    (file : option W) (st : run W) :
  training_cell f_inf f_ltb W forward criterion optimizer_step
    train_iterator valid_iterator N_EPOCHS w file = Ok st →
  (saved W st = file
   ∧ best_valid_loss W st = f_inf
   ∧ Forall (λ p, f_ltb p.1.2 f_inf = false) (printed W st))
  ∨ (∃ w_prev w_best r valid_acc,
       train W forward criterion optimizer_step w_prev train_iterator = Ok (w_best, r)
       ∧ saved W st = Some w_best
       ∧ evaluate W forward criterion w_best valid_iterator
         = Ok (best_valid_loss W st, valid_acc)).
Proof.
  unfold training_cell.
  set (st0 := {| model := w; best_valid_loss := f_inf; saved := file; printed := [] |}).
  assert (Hinv : (saved W st0 = file
                  ∧ best_valid_loss W st0 = f_inf
                  ∧ Forall (λ p, f_ltb p.1.2 f_inf = false) (printed W st0))
                 ∨ (∃ w_prev w_best r valid_acc,
                      train W forward criterion optimizer_step w_prev train_iterator
                      = Ok (w_best, r)
                      ∧ saved W st0 = Some w_best
                      ∧ evaluate W forward criterion w_best valid_iterator
                        = Ok (best_valid_loss W st0, valid_acc))).
  { left. by repeat split. }
  clearbody st0. revert st0 Hinv.
  induction N_EPOCHS as [|n IH]; intros st0 Hinv; cbn [run_epochs].
  - by intros [= <-].
  - py_unfold. destruct (run_epoch _ _ _ _ _ _ _ st0) as [st1|e] eqn:Hstep; [|done].
    apply IH. apply run_epoch_ok in Hstep
      as (w' & tl & ta & vl & va & Htr & Hev & Hmodel & Hprinted & Hbest).
    destruct (f_ltb vl (best_valid_loss W st0)) eqn:Hlt.
    + destruct Hbest as [Hb Hs]. right.
      exists (model W st0), w', (tl, ta), va. rewrite Hb. by repeat split.
    + destruct Hbest as [Hb Hs]. rewrite Hb, Hs, Hprinted.
      destruct Hinv as [(Hfile & Hinf & Hall)|Hsaved]; [|by right].
      left. repeat split; [done..|].
      apply Forall_app. split; [done|]. constructor; [|done].
      cbn [fst snd]. by rewrite <- Hinf.
Qed.

(** X10: when [<] on the losses is irreflexive and transitive, as it is on
    floats, the cell prints one line per epoch, no printed validation loss is
    below the final [best_valid_loss], and that value is [float('inf')] or
    one of the printed validation losses: the best is the least. *)
Theorem best_valid_loss_is_least (N_EPOCHS : nat) (w : W)
    (file : option W) (st : run W) :
  (∀ a, f_ltb a a = false) →
  (∀ a b c, f_ltb a b = true → f_ltb b c = true → f_ltb a c = true) →
  training_cell f_inf f_ltb W forward criterion optimizer_step
    train_iterator valid_iterator N_EPOCHS w file = Ok st →
  length (printed W st) = N_EPOCHS
  ∧ Forall (λ p, f_ltb p.1.2 (best_valid_loss W st) = false) (printed W st)
  ∧ (best_valid_loss W st = f_inf
     ∨ ∃ p, p ∈ printed W st ∧ p.1.2 = best_valid_loss W st).
Proof.
  intros Hirr Htrans. unfold training_cell.
  set (st0 := {| model := w; best_valid_loss := f_inf; saved := file; printed := [] |}).
  assert (Hinv : Forall (λ p, f_ltb p.1.2 (best_valid_loss W st0) = false) (printed W st0)
                 ∧ (best_valid_loss W st0 = f_inf
                    ∨ ∃ p, p ∈ printed W st0 ∧ p.1.2 = best_valid_loss W st0)).
  { split; [constructor|by left]. }
  replace N_EPOCHS with (length (printed W st0) + N_EPOCHS) at 2 by done.
  clearbody st0. revert st0 Hinv.
  induction N_EPOCHS as [|n IH]; intros st0 [Hall Hmem]; cbn [run_epochs].
  - intros [= <-]. split; [lia|done].
  - py_unfold. destruct (run_epoch _ _ _ _ _ _ _ st0) as [st1|e] eqn:Hstep; [|done].
    intros Hrun. apply run_epoch_ok in Hstep
      as (w' & tl & ta & vl & va & Htr & Hev & Hmodel & Hprinted & Hbest).
    replace (length (printed W st0) + S n) with (length (printed W st1) + n)
      by (rewrite Hprinted, length_app; simpl; lia).
    apply IH; [|done].
    rewrite Hprinted. destruct (f_ltb vl (best_valid_loss W st0)) eqn:Hlt.
    + destruct Hbest as [-> _]. split.
      * apply Forall_app. split.
        -- eapply Forall_impl; [exact Hall|]. intros p Hp. cbn beta in *.
           destruct (f_ltb p.1.2 vl) eqn:Hpv; [|done].
           by rewrite (Htrans _ _ _ Hpv Hlt) in Hp.
        -- constructor; [|done]. apply Hirr.
      * right. exists (tl, ta, vl, va). split; [|done].
        apply elem_of_app. right. by apply list_elem_of_singleton.
    + destruct Hbest as [-> _]. split.
      * apply Forall_app. split; [done|]. by constructor.
      * destruct Hmem as [?|(p & Hp & Heq)]; [by left|].
        right. exists p. split; [|done]. apply elem_of_app. by left.
Qed.
End ScriptFacts.

Lemma xfloat_ltb_irrefl (a : xfloat) : xfloat_ltb a a = false.
Proof.
  destruct a as [x| |]; [|done..]. cbn.
  apply negb_false_iff, Qle_bool_iff, Qle_refl.
Qed.

Lemma xfloat_ltb_trans (a b c : xfloat) :
  xfloat_ltb a b = true → xfloat_ltb b c = true → xfloat_ltb a c = true.
Proof.
  destruct a as [x| |], b as [y| |], c as [z| |]; try done. cbn.
  rewrite !negb_true_iff. intros Hxy Hyz.
  destruct (Qle_bool z x) eqn:Hzx; [|done].
  apply Qle_bool_iff in Hzx.
  assert (Hlt : (y < z)%Q).
  { apply Qnot_le_lt. intros Hle. apply Qle_bool_iff in Hle. congruence. }
  assert (Hyx : (y <= x)%Q) by (apply Qlt_le_weak; eapply Qlt_le_trans; eauto).
  apply Qle_bool_iff in Hyx. congruence.
Qed.

Lemma checkpoint_matches_best_valid_loss_witness :
  ∃ st,
    training_cell (H := xfloat_ops) Inf xfloat_ltb Q toy_forward toy_criterion toy_step
      [([[1; 2; 3]], [1])] [([[4; 5; 6]], [1])] 3 0%Q None = Ok st
    ∧ ((saved Q st = None
        ∧ best_valid_loss Q st = Inf
        ∧ Forall (λ p, xfloat_ltb p.1.2 Inf = false) (printed Q st))
       ∨ (∃ w_prev w_best r valid_acc,
            train (H := xfloat_ops) Q toy_forward toy_criterion toy_step w_prev
              [([[1; 2; 3]], [1])] = Ok (w_best, r)
            ∧ saved Q st = Some w_best
            ∧ evaluate (H := xfloat_ops) Q toy_forward toy_criterion w_best
                [([[4; 5; 6]], [1])]
              = Ok (best_valid_loss Q st, valid_acc))).
Proof.
  eexists. split.
  - vm_compute. reflexivity.
  - apply (checkpoint_matches_best_valid_loss (H := xfloat_ops) Inf xfloat_ltb Q
             toy_forward toy_criterion toy_step
             [([[1; 2; 3]], [1])] [([[4; 5; 6]], [1])] 3 0%Q None).
    vm_compute. reflexivity.
Defined.

Lemma best_valid_loss_is_least_witness :
  ∃ st,
    training_cell (H := xfloat_ops) Inf xfloat_ltb Q toy_forward toy_criterion toy_step
      [([[1; 2; 3]], [1])] [([[4; 5; 6]], [1])] 3 0%Q None = Ok st
    ∧ length (printed Q st) = 3
    ∧ Forall (λ p, xfloat_ltb p.1.2 (best_valid_loss Q st) = false) (printed Q st)
    ∧ (best_valid_loss Q st = Inf
       ∨ ∃ p, p ∈ printed Q st ∧ p.1.2 = best_valid_loss Q st).
Proof.
  eexists. split.
  - vm_compute. reflexivity.
  - apply (best_valid_loss_is_least (H := xfloat_ops) Inf xfloat_ltb Q
             toy_forward toy_criterion toy_step
             [([[1; 2; 3]], [1])] [([[4; 5; 6]], [1])] 3 0%Q None).
    + apply xfloat_ltb_irrefl.
    + apply xfloat_ltb_trans.
    + vm_compute. reflexivity.
Defined.

Example training_cell_example :
  match training_cell (H := xfloat_ops) Inf xfloat_ltb Q toy_forward toy_criterion
          toy_step [([[1; 2; 3]], [1])] [([[4; 5; 6]], [1])] 3 0%Q None with
  | Ok st =>
      model Q st = 3%Q ∧ saved Q st = Some 2%Q ∧ best_valid_loss Q st = Fin 0
      ∧ map (λ p, p.1.2) (printed Q st) = [Fin 1; Fin 0; Fin 1]
  | Raise _ => False
  end.
Proof. vm_compute. repeat split. Qed.

(** ** The FastText model *)

Lemma model_mapM_Forall2 {A B} (f : A → model_result B) (P : A → B → Prop)
    (xs : list A) :
  Forall (λ v, ∃ b, f v = Returns b ∧ P v b) xs →
  ∃ bs, model_mapM f xs = Returns bs ∧ Forall2 P xs bs.
Proof.
  induction 1 as [|v xs (b & Hb & HP) _ (bs & IH & Hall)]; [by exists []|].
  exists (b :: bs). split; [|by constructor].
  cbn [model_mapM]. model_unfold. by rewrite Hb, IH.
Qed.

Lemma model_mapM_raises {A B} (f : A → model_result B) (xs : list A) (e : model_exn) :
  model_mapM f xs = Raises e → Exists (λ v, f v = Raises e) xs.
Proof.
  induction xs as [|v xs IH]; [done|].
  cbn [model_mapM]. model_unfold. destruct (f v) as [b|e'] eqn:Hv.
  - destruct (model_mapM f xs) as [bs|e'']; [done|].
    intros [= ->]. right. by apply IH.
  - intros [= ->]. by left.
Qed.

Lemma model_mapM_only_raise {A B} (f : A → model_result B) (xs : list A)
    (e0 : model_exn) :
  (∀ v e, f v = Raises e → e = e0) →
  Exists (λ v, f v = Raises e0) xs →
  model_mapM f xs = Raises e0.
Proof.
  intros Honly. induction 1 as [v xs Hv|v xs _ IH];
    cbn [model_mapM]; model_unfold.
  - by rewrite Hv.
  - destruct (f v) as [b|e] eqn:Hv; [by rewrite IH|].
    by rewrite (Honly _ _ Hv).
Qed.

Lemma zip_star_length {A} (ls : list (list A)) (n : nat) :
  ls ≠ [] → Forall (λ l, length l = n) ls → length (zip_star ls) = n.
Proof.
  intros Hne Hall. induction Hall as [|l ls Hl Hall IH]; [done|].
  destruct ls as [|l' ls].
  - cbn. by rewrite length_map.
  - change (zip_star (l :: l' :: ls)) with (zip_with cons l (zip_star (l' :: ls))).
    rewrite length_zip_with, IH by done. lia.
Qed.

Section ModelFacts.
Context `{FloatOps F}.
Variable f_mul : F → F → F.

Lemma embedding_row_lookup (weight : list (list F)) (idx : nat) (e : model_exn) :
  match weight !! idx with
  | Some row => Returns row
  | None => Raises IndexError
  end = Raises e →
  e = IndexError ∧ length weight ≤ idx.
Proof.
  destruct (weight !! idx) eqn:Hrow; [done|].
  intros [= <-]. split; [done|]. by apply lookup_ge_None.
Qed.

(** The forward pass on a well-shaped batch with ids in range. *)
Lemma FastText_forward_returns (m : FastText) (text : LongTensor)
    (vocab_size embedding_dim output_dim : nat) :
  FastText_shape m vocab_size embedding_dim output_dim →
  0 < embedding_dim →
  LongTensor_wf text →
  sentences text ≠ [] →
  0 < sent_len text →
  Forall (Forall (λ idx, idx < vocab_size)) (sentences text) →
  ∃ out,
    FastText_forward f_mul m text = Returns out
    ∧ length out = length (sentences text)
    ∧ Forall (λ row, length row = output_dim) out.
Proof.
  intros (HV & HE & HO & HW & Hb) Hdim Hwf Hbatch Hlen Hids.
  unfold LongTensor_wf in Hwf.
  destruct (model_mapM_Forall2
              (model_mapM (λ idx, match embedding_weight m !! idx with
                                  | Some row => Returns row
                                  | None => Raises IndexError
                                  end))
              (λ s (vectors : list (list F)),
                 length vectors = sent_len text
                 ∧ Forall (λ v, length v = embedding_dim) vectors)
              (sentences text)) as (embedded & Hemb & Hshape).
  { apply Forall_forall. intros s Hs.
    rewrite Forall_forall in Hids, Hwf.
    destruct (model_mapM_Forall2
                (λ idx, match embedding_weight m !! idx with
                        | Some row => Returns row
                        | None => Raises IndexError
                        end)
                (λ (idx : nat) (v : list F), length v = embedding_dim) s)
      as (vectors & Hvec & Hrows).
    { apply Forall_forall. intros idx Hidx.
      pose proof (Hids s Hs) as Hs'. rewrite Forall_forall in Hs'.
      destruct (lookup_lt_is_Some_2 (embedding_weight m) idx) as [row Hrow];
        [rewrite HV; by apply Hs'|].
      exists row. rewrite Hrow. split; [done|].
      rewrite Forall_forall in HE. apply HE. by eapply list_elem_of_lookup_2. }
    exists vectors. split; [done|]. split.
    - rewrite <- (Forall2_length _ _ _ Hrows). by apply Hwf.
    - clear -Hrows. induction Hrows; by constructor. }
  assert (Hok : ¬ (sent_len text = 0 ∨ length embedded = 0
                   ∨ tensor_width embedded = 0)).
  { destruct Hshape as [|s vectors ss vs [HL Hv] _]; [done|].
    destruct vectors as [|v vectors]; [simpl in HL; lia|].
    apply Forall_cons in Hv as [Hv _]. cbn [tensor_width length]. lia. }
  assert (Hpooled : Forall (λ x : list F, length x = embedding_dim)
                      (map (avg_pool_sentence (sent_len text)) embedded)).
  { apply Forall_map. clear Hemb Hwf Hids Hbatch Hok.
    induction Hshape as [|s v ss vs [HL Hv] _ IH]; [by constructor|].
    constructor; [|done].
    unfold avg_pool_sentence. rewrite length_map.
    apply zip_star_length; [|done]. destruct v; [simpl in HL; lia|done]. }
  destruct (model_mapM_Forall2 (linear f_mul (fc_weight m) (fc_bias m))
              (λ _ (row : list F), length row = output_dim)
              (map (avg_pool_sentence (sent_len text)) embedded))
    as (out & Hout & Hrows).
  { eapply Forall_impl; [exact Hpooled|]. intros x Hx. cbn beta.
    unfold linear. rewrite decide_True.
    - eexists. split; [done|]. rewrite length_zip_with. lia.
    - by rewrite Hx. }
  exists out. split; [|split].
  - unfold FastText_forward, embedding_forward. model_unfold. rewrite Hemb.
    unfold avg_pool. rewrite decide_False by exact Hok. exact Hout.
  - rewrite <- (Forall2_length _ _ _ Hrows), length_map.
    symmetry. by eapply Forall2_length.
  - clear -Hrows. induction Hrows; by constructor.
Qed.

(** X11: a model of shape [vocab_size], [embedding_dim], [output_dim] with
    [embedding_dim] positive, applied to a batch of at least one sentence,
    the sentences of one positive length and all ids below [vocab_size],
    raises nothing and returns one row of [output_dim] numbers
    per sentence. *)
Theorem FastText_forward_shape (m : FastText) (text : LongTensor)
    (vocab_size embedding_dim output_dim : nat) :
  FastText_shape m vocab_size embedding_dim output_dim →
  0 < embedding_dim →
  LongTensor_wf text →
  sentences text ≠ [] →
  0 < sent_len text →
  Forall (Forall (λ idx, idx < vocab_size)) (sentences text) →
  ∃ out,
    FastText_forward f_mul m text = Returns out
    ∧ length out = length (sentences text)
    ∧ Forall (λ row, length row = output_dim) out.
Proof. apply FastText_forward_returns. Qed.

(** X12: the forward pass raises IndexError exactly when some id of the
    batch is not a row of the embedding table, whatever the other shapes
    are. *)
Theorem FastText_forward_index_error (m : FastText) (text : LongTensor) :
  FastText_forward f_mul m text = Raises IndexError
  ↔ Exists (Exists (λ idx, length (embedding_weight m) ≤ idx)) (sentences text).
Proof.
  unfold FastText_forward, embedding_forward. split.
  - model_unfold.
    destruct (model_mapM _ (sentences text)) as [embedded|e] eqn:Hemb.
    + unfold avg_pool. case_decide; [done|].
      intros Hlin. apply model_mapM_raises in Hlin.
      apply Exists_exists in Hlin as (x & _ & Hx).
      unfold linear in Hx. by case_decide.
    + intros [= ->]. apply model_mapM_raises in Hemb.
      eapply Exists_impl; [exact Hemb|]. intros s Hs. cbn beta in Hs.
      apply model_mapM_raises in Hs.
      eapply Exists_impl; [exact Hs|]. intros idx Hidx. cbn beta in Hidx.
      by apply embedding_row_lookup in Hidx as [_ ?].
  - intros Hex. model_unfold.
    rewrite (model_mapM_only_raise _ _ IndexError); [done| |].
    + intros s e Hs. apply model_mapM_raises in Hs.
      apply Exists_exists in Hs as (idx & _ & Hidx).
      by apply embedding_row_lookup in Hidx as [-> _].
    + eapply Exists_impl; [exact Hex|]. intros s Hs. cbn beta in Hs.
      apply model_mapM_only_raise.
      * intros idx e Hidx. by apply embedding_row_lookup in Hidx as [-> _].
      * eapply Exists_impl; [exact Hs|]. intros idx Hidx. cbn beta in Hidx.
        by rewrite (lookup_ge_None_2 _ _ Hidx).
Qed.
Lemma numel_rectangular (p : list (list F)) (rows columns : nat) :
  length p = rows → Forall (λ row, length row = columns) p →
  numel p = rows * columns.
Proof.
  intros <- Hall. unfold numel.
  induction Hall as [|row p Hrow _ IH]; [done|].
  simpl in *. rewrite IH, Hrow. lia.
Qed.

(** X13: for a model of shape [vocab_size], [embedding_dim], [output_dim],
    [count_parameters] is the sum of [vocab_size*embedding_dim],
    [embedding_dim*output_dim] and [output_dim], each counted only if its
    parameter requires gradients; with all three flags set, as in a new
    module, and the notebook's 622857, 100 and 1 that is the 62,285,801 it
    prints. *)
Theorem count_parameters_formula (m : FastText (F := F)) (flags : requires_grad)
    (vocab_size embedding_dim output_dim : nat) :
  FastText_shape m vocab_size embedding_dim output_dim →
  count_parameters m flags
  = (if embedding_weight_grad flags then vocab_size * embedding_dim else 0)
    + (if fc_weight_grad flags then embedding_dim * output_dim else 0)
    + (if fc_bias_grad flags then output_dim else 0).
Proof.
  intros (HV & HE & HO & HW & Hb). unfold count_parameters.
  rewrite (numel_rectangular _ _ _ HV HE), (numel_rectangular _ _ _ HO HW), Hb.
  rewrite (Nat.mul_comm output_dim embedding_dim).
  destruct flags as [[] [] []]; cbn; repeat case_decide; try done;
    cbn; unfold id; lia.
Qed.

Lemma set_embedding_row_ok (m : FastText) (idx : nat) (row : list F)
    (vocab_size embedding_dim output_dim : nat) :
  FastText_shape m vocab_size embedding_dim output_dim →
  idx < vocab_size →
  length row = embedding_dim →
  set_embedding_row m idx row
  = Returns {| embedding_weight := <[idx := row]> (embedding_weight m);
               fc_weight := fc_weight m;
               fc_bias := fc_bias m |}
  ∧ FastText_shape {| embedding_weight := <[idx := row]> (embedding_weight m);
                      fc_weight := fc_weight m;
                      fc_bias := fc_bias m |}
      vocab_size embedding_dim output_dim.
Proof.
  intros (HV & HE & HO & HW & Hb) Hidx Hrow. split.
  - unfold set_embedding_row.
    destruct (lookup_lt_is_Some_2 (embedding_weight m) idx) as [old Hold]; [lia|].
    rewrite Hold. rewrite decide_True; [done|].
    rewrite Forall_forall in HE. rewrite Hrow. symmetry. apply HE.
    by eapply list_elem_of_lookup_2.
  - unfold FastText_shape. cbn [embedding_weight fc_weight fc_bias].
    rewrite length_insert. split; [done|]. split; [|done].
    by apply Forall_insert.
Qed.

(** X14: zeroing the rows of the unknown and the padding token, both below
    [vocab_size], raises nothing, keeps the model's shape, leaves the two
    rows all zero, and changes no other row and no weight of the linear
    layer. *)
Theorem zero_reserved_rows_ok (m : FastText)
    (vocab_size embedding_dim output_dim UNK_IDX PAD_IDX : nat) :
  FastText_shape m vocab_size embedding_dim output_dim →
  UNK_IDX < vocab_size →
  PAD_IDX < vocab_size →
  ∃ m',
    zero_reserved_rows m UNK_IDX PAD_IDX embedding_dim = Returns m'
    ∧ FastText_shape m' vocab_size embedding_dim output_dim
    ∧ embedding_weight m' !! UNK_IDX = Some (replicate embedding_dim f_zero)
    ∧ embedding_weight m' !! PAD_IDX = Some (replicate embedding_dim f_zero)
    ∧ (∀ idx, idx ≠ UNK_IDX → idx ≠ PAD_IDX →
              embedding_weight m' !! idx = embedding_weight m !! idx)
    ∧ fc_weight m' = fc_weight m
    ∧ fc_bias m' = fc_bias m.
Proof.
  intros Hshape Hunk Hpad.
  destruct (set_embedding_row_ok m UNK_IDX (replicate embedding_dim f_zero)
              _ _ _ Hshape Hunk) as [Hset1 Hshape1]; [apply length_replicate|].
  destruct (set_embedding_row_ok _ PAD_IDX (replicate embedding_dim f_zero)
              _ _ _ Hshape1 Hpad) as [Hset2 Hshape2]; [apply length_replicate|].
  eexists. split; [|split; [exact Hshape2|]].
  { unfold zero_reserved_rows. model_unfold. rewrite Hset1. exact Hset2. }
  cbn [embedding_weight fc_weight fc_bias].
  destruct Hshape as (HV & _).
  split; [|split; [|split; [|done]]].
  - destruct (decide (PAD_IDX = UNK_IDX)) as [->|Hne].
    + apply list_lookup_insert_eq. rewrite length_insert. lia.
    + rewrite list_lookup_insert_ne by done. apply list_lookup_insert_eq. lia.
  - apply list_lookup_insert_eq. rewrite length_insert. lia.
  - intros idx Hu Hp. by rewrite !list_lookup_insert_ne.
Qed.
End ModelFacts.

(** A model of shape 3, 2, 1 to run the forward pass on. *)
Lemma FastText_forward_shape_witness :
  ∃ out,
    FastText_forward (H := Q_ops soft_sigmoid round_nearest) Qmult
      {| embedding_weight := [[0; 0]; [1; 2]; [3; 4 # 3]]%Q;
         fc_weight := [[1 # 2; -(1)]]%Q;
         fc_bias := [1 # 4]%Q |}
      {| sent_len := 2; sentences := [[1; 2]; [0; 1]] |} = Returns out
    ∧ length out = length [[1; 2]; [0; 1]]
    ∧ Forall (λ row, length row = 1) out.
Proof.
  apply (FastText_forward_shape (H := Q_ops soft_sigmoid round_nearest) Qmult
           {| embedding_weight := [[0; 0]; [1; 2]; [3; 4 # 3]]%Q;
              fc_weight := [[1 # 2; -(1)]]%Q;
              fc_bias := [1 # 4]%Q |}
           {| sent_len := 2; sentences := [[1; 2]; [0; 1]] |} 3 2 1).
  - repeat split; repeat constructor.
  - lia.
  - repeat constructor.
  - discriminate.
  - simpl. lia.
  - repeat constructor.
Defined.

Lemma count_parameters_formula_witness :
  count_parameters (F := Q)
    {| embedding_weight := [[0; 0]; [1; 2]; [3; 4 # 3]]%Q;
       fc_weight := [[1 # 2; -(1)]]%Q;
       fc_bias := [1 # 4]%Q |}
    {| embedding_weight_grad := false; fc_weight_grad := true; fc_bias_grad := true |}
  = 0 + 2 * 1 + 1.
Proof.
  apply (count_parameters_formula (F := Q)
           {| embedding_weight := [[0; 0]; [1; 2]; [3; 4 # 3]]%Q;
              fc_weight := [[1 # 2; -(1)]]%Q;
              fc_bias := [1 # 4]%Q |}
           {| embedding_weight_grad := false; fc_weight_grad := true;
              fc_bias_grad := true |} 3 2 1).
  repeat split; repeat constructor.
Defined.

Lemma zero_reserved_rows_ok_witness :
  ∃ m',
    zero_reserved_rows (H := Q_ops soft_sigmoid round_nearest)
      {| embedding_weight := [[5; 6]; [1; 2]; [3; 4 # 3]]%Q;
         fc_weight := [[1 # 2; -(1)]]%Q;
         fc_bias := [1 # 4]%Q |} 1 0 2 = Returns m'
    ∧ FastText_shape m' 3 2 1
    ∧ embedding_weight m' !! 1 = Some (replicate 2 0%Q)
    ∧ embedding_weight m' !! 0 = Some (replicate 2 0%Q)
    ∧ (∀ idx, idx ≠ 1 → idx ≠ 0 →
              embedding_weight m' !! idx
              = [[5; 6]; [1; 2]; [3; 4 # 3]]%Q !! idx)
    ∧ fc_weight m' = [[1 # 2; -(1)]]%Q
    ∧ fc_bias m' = [1 # 4]%Q.
Proof.
  apply (zero_reserved_rows_ok (H := Q_ops soft_sigmoid round_nearest)
           {| embedding_weight := [[5; 6]; [1; 2]; [3; 4 # 3]]%Q;
              fc_weight := [[1 # 2; -(1)]]%Q;
              fc_bias := [1 # 4]%Q |} 3 2 1 1 0).
  - repeat split; repeat constructor.
  - lia.
  - lia.
Defined.

Example FastText_forward_example :
  FastText_forward (H := Q_ops soft_sigmoid round_nearest) Qmult
    {| embedding_weight := [[0; 0]; [1; 2]; [3; 4]]%Q;
       fc_weight := [[1; -(1)]]%Q;
       fc_bias := [10]%Q |}
    {| sent_len := 2; sentences := [[1; 2]; [0; 1]] |}
  = Returns [[(36 # 4)]; [(38 # 4)]]%Q
  ∧ FastText_forward (H := Q_ops soft_sigmoid round_nearest) Qmult
      {| embedding_weight := [[0; 0]; [1; 2]; [3; 4]]%Q;
         fc_weight := [[1; -(1)]]%Q;
         fc_bias := [10]%Q |}
      {| sent_len := 2; sentences := [[1; 3]; [0; 1]] |}
    = Raises IndexError.
Proof. split; vm_compute; reflexivity. Qed.

(** ** Inference, end to end *)

Lemma token_id_in_range (d : gmap string nat) (tok : string) (i : nat) :
  vocab_wf d → token_id d tok = Ok i → i < size d.
Proof.
  intros [Hcontig _]. unfold token_id.
  destruct (d !! tok) as [j|] eqn:Htok.
  - intros [= <-]. apply Hcontig. eauto.
  - destruct (d !! "<unk>") as [u|] eqn:Hunk; [|done].
    intros [= <-]. apply Hcontig. eauto.
Qed.

(** X15: a call of [predict_sentiment] that returns has written two things
    only. It has cleared the model's training flag, by [model.eval()]; and it
    has added one list to the heap, the sentence's tokens followed by their
    bigrams. Every list and dict that existed before is as it was. What it
    returns is the sigmoid of the single number the model gives for the id
    sequence of that list. *)
Theorem predict_sentiment_frame `{FloatOps F} (tokenizer : string → list string)
    (W : Type) (forward : W → list (list nat) → list F)
    (VOCAB : loc) (model : W) (training training' : bool) (sentence : string)
    (h h' : gmap loc pyobj) (prediction : F) :
  predict_sentiment tokenizer W forward VOCAB model training sentence h
  = Ok ((prediction, training'), h') →
  training' = false
  ∧ h !! fresh (dom h) = None
  ∧ h' = <[fresh (dom h) := PyList (bigram_items (tokenizer sentence))]> h
  ∧ (∀ l o, h !! l = Some o → h' !! l = Some o)
  ∧ ∃ indexed logit,
      outcome (predict_indexed tokenizer VOCAB sentence h) = Ok indexed
      ∧ forward model [indexed] = [logit]
      ∧ prediction = f_sigmoid logit.
Proof.
  unfold predict_sentiment. py_unfold.
  destruct (predict_indexed tokenizer VOCAB sentence h) as [[indexed h1]|e] eqn:Hrun;
    [|done].
  assert (Hh1 : h1 = <[fresh (dom h) := PyList (bigram_items (tokenizer sentence))]> h).
  { unfold predict_indexed in Hrun. py_unfold.
    rewrite predict_tokenized_run in Hrun.
    unfold vectorize in Hrun. py_unfold. unfold dict_items, list_items in Hrun.
    destruct (_ !! VOCAB) as [[|d]|]; try done.
    destruct (_ !! fresh (dom h)) as [[toks|]|]; try done.
    rewrite comprehension_token_id in Hrun.
    destruct (vectorize_items d toks); [|done]. by injection Hrun as _ <-. }
  destruct (forward model [indexed]) as [|logit [|? ?]] eqn:Hfwd; try done.
  cbn [map item]. intros [= <- <- <-].
  pose proof (new_list_fresh h) as Hfresh.
  split; [done|]. split; [done|]. split; [done|]. split.
  - intros l o Hl. rewrite Hh1, lookup_insert_ne; [done|]. congruence.
  - exists indexed, logit. by repeat split.
Qed.

Lemma predict_sentiment_frame_witness :
  ∃ prediction training' h',
    predict_sentiment (H := Q_ops soft_sigmoid round_nearest) whitespace_tokenizer unit
      (λ _ text, map (λ ids, inject_Z (Z.of_nat (length ids)) - 2)%Q text)
      0 tt true "good film"
      {[0 := PyDict (build_vocab false [["good"; "film"; "good film"]])]}
    = Ok ((prediction, training'), h')
    ∧ training' = false
    ∧ ({[0 := PyDict (build_vocab false [["good"; "film"; "good film"]])]}
         : gmap loc pyobj)
        !! fresh (dom ({[0 := PyDict (build_vocab false [["good"; "film"; "good film"]])]}
                         : gmap loc pyobj)) = None
    ∧ h' = <[fresh (dom ({[0 := PyDict (build_vocab false [["good"; "film"; "good film"]])]}
                           : gmap loc pyobj))
             := PyList (bigram_items (whitespace_tokenizer "good film"))]>
             {[0 := PyDict (build_vocab false [["good"; "film"; "good film"]])]}
    ∧ (∀ l o,
         ({[0 := PyDict (build_vocab false [["good"; "film"; "good film"]])]}
            : gmap loc pyobj) !! l = Some o →
         h' !! l = Some o)
    ∧ ∃ indexed logit,
        outcome (predict_indexed whitespace_tokenizer 0 "good film"
                   {[0 := PyDict (build_vocab false [["good"; "film"; "good film"]])]})
        = Ok indexed
        ∧ map (λ ids, inject_Z (Z.of_nat (length ids)) - 2)%Q [indexed] = [logit]
        ∧ prediction = soft_sigmoid logit.
Proof.
  eexists _, _, _. split.
  - vm_compute. reflexivity.
  - apply (predict_sentiment_frame (H := Q_ops soft_sigmoid round_nearest)
             whitespace_tokenizer unit
             (λ _ text, map (λ ids, inject_Z (Z.of_nat (length ids)) - 2)%Q text)
             0 tt true _ "good film"
             {[0 := PyDict (build_vocab false [["good"; "film"; "good film"]])]}).
    vm_compute. reflexivity.
Defined.

(** X16: with the embedding sized by [len(VOCAB)], a positive embedding
    dimension and one output, the id
    sequence [predict_sentiment] builds for a sentence with at least one
    token has every id below the embedding's size, so the model's forward
    pass on it raises nothing and gives one number. The vocabulary and
    [vectorize] are the ones of [data_utils] as modelled above. *)
Theorem predict_ids_fit_model `{FloatOps F} (f_mul : F → F → F)
    (tokenizer : string → list string) (unk_first : bool)
    (corpus : list (list string)) (VOCAB : loc) (h : gmap loc pyobj)
    (m : FastText) (EMBEDDING_DIM : nat) (sentence : string) :
  h !! VOCAB = Some (PyDict (build_vocab unk_first corpus)) →
  FastText_shape m (size (build_vocab unk_first corpus)) EMBEDDING_DIM 1 →
  0 < EMBEDDING_DIM →
  tokenizer sentence ≠ [] →
  ∃ indexed logit,
    outcome (predict_indexed tokenizer VOCAB sentence h) = Ok indexed
    ∧ Forall (λ idx, idx < size (build_vocab unk_first corpus)) indexed
    ∧ FastText_forward f_mul m {| sent_len := length indexed; sentences := [indexed] |}
      = Returns [[logit]].
Proof.
  intros Hv Hshape Hdim Hne.
  destruct (vectorize_items_total (build_vocab unk_first corpus)
              (bigram_items (tokenizer sentence))) as [ids [Hids Hall]].
  { rewrite build_vocab_unk. by eexists. }
  assert (Hrange : Forall (λ idx, idx < size (build_vocab unk_first corpus)) ids).
  { clear Hids. induction Hall as [|tok i toks ids Hi _ IH]; constructor; [|done].
    eapply token_id_in_range; [apply build_vocab_wf|exact Hi]. }
  assert (Hlen : 0 < length ids).
  { rewrite <- (Forall2_length _ _ _ Hall), bigram_items_length.
    destruct (tokenizer sentence); [done|]. simpl. lia. }
  destruct (FastText_forward_returns f_mul m
              {| sent_len := length ids; sentences := [ids] |} _ _ _ Hshape Hdim)
    as (out & Hout & Hrows & Hcols).
  { by repeat constructor. }
  { done. }
  { exact Hlen. }
  { by repeat constructor. }
  cbn [sentences length] in Hrows.
  destruct out as [|row [|? ?]]; try done.
  apply Forall_cons in Hcols as [Hrow _].
  destruct row as [|logit [|? ?]]; try done.
  exists ids, logit. split; [|by split].
  by rewrite (predict_indexed_run _ _ _ _ _ Hv), Hids.
Qed.

Lemma predict_ids_fit_model_witness :
  ∃ indexed logit,
    outcome (predict_indexed whitespace_tokenizer 0 "good film"
               {[0 := PyDict (build_vocab false [["good"; "film"]])]})
    = Ok indexed
    ∧ Forall (λ idx, idx < size (build_vocab false [["good"; "film"]])) indexed
    ∧ FastText_forward (H := Q_ops soft_sigmoid round_nearest) Qmult
        {| embedding_weight := [[0; 0]; [0; 0]; [1; 2]; [3; 4]]%Q;
           fc_weight := [[1; -(1)]]%Q;
           fc_bias := [10]%Q |}
        {| sent_len := length indexed; sentences := [indexed] |}
      = Returns [[logit]].
Proof.
  apply (predict_ids_fit_model (H := Q_ops soft_sigmoid round_nearest) Qmult
           whitespace_tokenizer false [["good"; "film"]] 0
           {[0 := PyDict (build_vocab false [["good"; "film"]])]}
           {| embedding_weight := [[0; 0]; [0; 0]; [1; 2]; [3; 4]]%Q;
              fc_weight := [[1; -(1)]]%Q;
              fc_bias := [10]%Q |} 2 "good film").
  - reflexivity.
  - repeat split; repeat constructor.
  - lia.
  - vm_compute. discriminate.
Defined.

(** ** The reported accuracy, in exact arithmetic *)

Lemma result_mapM_Forall2 {A B} (f : A → result B) (P : A → B → Prop) (xs : list A) :
  Forall (λ v, ∃ b, f v = Ok b ∧ P v b) xs →
  ∃ bs, result_mapM f xs = Ok bs ∧ Forall2 P xs bs.
Proof.
  induction 1 as [|v xs (b & Hb & HP) _ (bs & IH & Hall)]; [by exists []|].
  exists (b :: bs). split; [|by constructor].
  cbn [result_mapM]. py_unfold. by rewrite Hb, IH.
Qed.

Lemma foldl_Qplus_range (l : list Q) (acc : Q) :
  Forall (λ a, 0 <= a ∧ a <= 1)%Q l →
  (acc <= foldl Qplus acc l)%Q
  ∧ (foldl Qplus acc l <= acc + inject_Z (Z.of_nat (length l)))%Q.
Proof.
  intros Hall. revert acc. induction Hall as [|a l [Ha0 Ha1] _ IH]; intros acc.
  - cbn. split; [apply Qle_refl|]. rewrite Qplus_0_r. apply Qle_refl.
  - cbn [foldl length]. destruct (IH (acc + a)%Q) as [IH1 IH2]. split.
    + eapply Qle_trans; [|exact IH1].
      rewrite <- (Qplus_0_r acc) at 1. by apply Qplus_le_r.
    + eapply Qle_trans; [exact IH2|].
      rewrite Nat2Z.inj_succ, <- Z.add_1_l, inject_Z_plus.
      rewrite Qplus_assoc. apply Qplus_le_l. by apply Qplus_le_r.
Qed.

Section AccuracyRange.
Variables sigmoid round : Q → Q.
Variable W : Type.
Variable forward : W → list (list nat) → list Q.
Variable criterion : list Q → list Q → Q.

#[local] Instance range_ops : FloatOps Q := Q_ops sigmoid round.

Lemma binary_accuracy_unit_interval (preds y : list Q) :
  length preds = length y →
  0 < length preds →
  ∃ acc, binary_accuracy preds y = Ok acc ∧ (0 <= acc)%Q ∧ (acc <= 1)%Q.
Proof.
  intros Hlen Hpos. unfold binary_accuracy, tensor_eq.
  rewrite length_map. rewrite decide_True by done.
  eexists. split; [reflexivity|].
  unfold tensor_div.
  assert (Hl : length (tensor_float (zip_with f_eqb
                 (map (λ p, f_round (f_sigmoid p)) preds) y)) = length preds).
  { unfold tensor_float. rewrite length_map, length_zip_with, length_map. lia. }
  rewrite Hl.
  assert (Hn : (0 < inject_Z (Z.of_nat (length preds)))%Q).
  { rewrite <- (Zlt_Qlt 0). lia. }
  change (@f_div Q range_ops) with Qdiv.
  change (@f_of_nat Q range_ops) with (λ n, inject_Z (Z.of_nat n)). cbv beta.
  rewrite (tensor_sum_float sigmoid round), (count_true_zip sigmoid round).
  split.
  - apply Qle_shift_div_l; [done|]. rewrite Qmult_0_l.
    rewrite <- (Zle_Qle 0). lia.
  - apply Qle_shift_div_r; [done|]. rewrite Qmult_1_l.
    rewrite <- Zle_Qle. pose proof (count_correct_le sigmoid round preds y). lia.
Qed.

(** X17: in exact arithmetic, on an iterator with at least one batch, every
    batch with at least one sentence and as many predictions as labels, the
    accuracy [evaluate] returns is between 0 and 1. *)
Theorem evaluate_accuracy_range (w : W) (iterator : list batch) :
  iterator ≠ [] →
  Forall (λ b : batch, length (forward w b.1) = length b.2 ∧ 0 < length b.2)
         iterator →
  ∃ loss acc,
    evaluate W forward criterion w iterator = Ok (loss, acc)
    ∧ (0 <= acc)%Q ∧ (acc <= 1)%Q.
Proof.
  intros Hne Hshape.
  destruct (result_mapM_Forall2 (batch_metrics forward criterion w)
              (λ _ (m : Q * Q), (0 <= m.2 ∧ m.2 <= 1)%Q) iterator)
    as (ms & Hms & Hall).
  { eapply Forall_impl; [exact Hshape|]. intros b [Hlen Hpos]. cbn beta.
    destruct (binary_accuracy_unit_interval (forward w b.1) (map f_of_nat b.2))
      as (acc & Hacc & H0 & H1); [by rewrite length_map|lia|].
    unfold batch_metrics. py_unfold. rewrite Hacc. eexists. by split. }
  assert (Hk : length ms = length iterator) by (symmetry; by eapply Forall2_length).
  assert (Hrange : Forall (λ a, 0 <= a ∧ a <= 1)%Q ms.*2).
  { clear -Hall. induction Hall; by constructor. }
  destruct (foldl_Qplus_range ms.*2 0%Q Hrange) as [Hlo Hhi].
  rewrite length_fmap, Hk, Qplus_0_l in Hhi.
  assert (Hn : length iterator ≠ 0) by by destruct iterator.
  assert (Hq : (0 < inject_Z (Z.of_nat (length iterator)))%Q).
  { rewrite <- (Zlt_Qlt 0). lia. }
  rewrite evaluate_closed. py_unfold. rewrite Hms.
  unfold epoch_mean, py_truediv. rewrite !decide_False by done. py_unfold.
  do 2 eexists. split; [reflexivity|].
  change (@f_div Q range_ops) with Qdiv.
  change (@f_of_nat Q range_ops) with (λ n, inject_Z (Z.of_nat n)). cbv beta.
  unfold tensor_sum. change (@f_zero Q range_ops) with 0%Q.
  change (@f_add Q range_ops) with Qplus. split.
  - apply Qle_shift_div_l; [done|]. by rewrite Qmult_0_l.
  - apply Qle_shift_div_r; [done|]. by rewrite Qmult_1_l.
Qed.
End AccuracyRange.

Lemma evaluate_accuracy_range_witness :
  ∃ loss acc,
    evaluate (H := Q_ops soft_sigmoid round_nearest) nat
      (λ _ sentences, map (λ ids, inject_Z (Z.of_nat (length ids)) - 2)%Q sentences)
      (λ _ _, 1 # 2)%Q 0 [([[5; 6; 7]; [8]], [1; 1]); ([[9]], [0])] = Ok (loss, acc)
    ∧ (0 <= acc)%Q ∧ (acc <= 1)%Q.
Proof.
  apply (evaluate_accuracy_range soft_sigmoid round_nearest nat
           (λ _ sentences, map (λ ids, inject_Z (Z.of_nat (length ids)) - 2)%Q sentences)
           (λ _ _, 1 # 2)%Q 0 [([[5; 6; 7]; [8]], [1; 1]); ([[9]], [0])]).
  - discriminate.
  - repeat constructor.
Defined.
